(** * page-analyser: metrics extraction, vitals normalisation, fallback
      scoring and the bounded history log

    A shallow embedding of [src/worker.ts] and [src/inspector-do.ts].

    - JavaScript strings are sequences of UTF-16 code units: [str] is
      [list N], and every string operation of the source ([startsWith],
      [trim], regular-expression [match], [test] and [replace], [length])
      works on code units, as it does in the source (no pattern carries the
      [u] flag).
    - A function that can throw returns [option]; [None] is the exception.
    - The platform's [URL] class is a parameter of the extractor; a model of
      it on a documented fragment is used for closed examples only. *)

From Stdlib Require Import ZArith NArith QArith Qround Ascii String List Bool Lia Lqa.
From Stdlib Require Import DecimalString.
From stdpp Require Import base decidable option list countable gmap sets.

Open Scope Z_scope.

(* ===================================================================== *)
(** ** Strings *)
(* ===================================================================== *)

Module Str.

(** A JavaScript string: its UTF-16 code units. *)
Definition str : Type := list N.

(** The code units of an ASCII literal of the source. *)
Definition js (s : string) : str := map N_of_ascii (list_ascii_of_string s).

Definition str_eqb (a b : str) : bool := bool_decide (a = b).

(** [s.startsWith(p)] (case-sensitive, code unit by code unit). *)
Fixpoint startsWith (p s : str) : bool :=
  match p, s with
  | [], _ => true
  | c :: p', d :: s' => N.eqb c d && startsWith p' s'
  | _ :: _, [] => false
  end.

(** ECMAScript WhiteSpace and LineTerminator code points: the set that
    [\s] matches and that [trim] removes. *)
Definition isSpace (c : N) : bool :=
  ((9 <=? c) && (c <=? 13) || (c =? 32) || (c =? 160) || (c =? 5760)
   || (8192 <=? c) && (c <=? 8202) || (c =? 8232) || (c =? 8233)
   || (c =? 8239) || (c =? 8287) || (c =? 12288) || (c =? 65279))%N.

Fixpoint trimStart (s : str) : str :=
  match s with
  | c :: s' => if isSpace c then trimStart s' else s
  | [] => []
  end.

Definition trimEnd (s : str) : str := rev (trimStart (rev s)).

(** [s.trim()] *)
Definition trim (s : str) : str := trimEnd (trimStart s).

(** JavaScript truthiness of a string: non-empty. *)
Definition truthy (s : str) : bool :=
  match s with [] => false | _ :: _ => true end.

(** Decimal digits of a non-negative integer, as [String(n)] prints it. *)
Definition ofN (n : N) : str := js (NilZero.string_of_uint (N.to_uint n)).

End Str.
Import Str.

(* ===================================================================== *)
(** ** Regular expressions *)
(* ===================================================================== *)

(** The backtracking matcher of ECMAScript on the pattern language the
    source uses: literals, character classes, [\s], greedy [*] and [+] and
    lazy [*?] on a single-character atom, concatenation, alternation and one
    capture group.  Priorities are the engine's: a greedy quantifier tries
    the longest repetition first, a lazy one the shortest, an alternation
    its left branch first, and a search the leftmost start. *)
Module RegExp.

(** A single-character atom. *)
Inductive cset : Type :=
| CChar (c : N)            (* a literal character *)
| CSpace                   (* \s *)
| CAnyOf (l : list N)      (* [abc] *)
| CNoneOf (l : list N)     (* [^abc] *)
| CAll.                    (* [\s\S] *)

Inductive regex : Type :=
| Eps
| One (c : cset)
| Star (c : cset)          (* c*  *)
| Plus (c : cset)          (* c+  *)
| StarLazy (c : cset)      (* c*? *)
| Cat (r1 r2 : regex)
| Alt (r1 r2 : regex)
| Group (r : regex).       (* ( r ), the pattern's capture group 1 *)

(** Canonicalize of the [i] flag.  Every character written in the
    patterns of the source is ASCII, and the engine never maps a
    character outside ASCII to one inside, so only the ASCII letters
    matter. *)
Definition canon (i : bool) (c : N) : N :=
  if (i && (97 <=? c) && (c <=? 122))%N then (c - 32)%N else c.

Definition cset_mem (i : bool) (cs : cset) (x : N) : bool :=
  match cs with
  | CChar c => (canon i x =? canon i c)%N
  | CSpace => isSpace x
  | CAnyOf l => existsb (fun c => (canon i x =? canon i c)%N) l
  | CNoneOf l => negb (existsb (fun c => (canon i x =? canon i c)%N) l)
  | CAll => true
  end.

Section Matcher.
Context {R : Type}.
Variable i : bool.

Definition orElse (a : option R) (b : option R) : option R :=
  match a with Some x => Some x | None => b end.

Fixpoint star_greedy (c : cset) (s : str) (k : str -> option R) : option R :=
  match s with
  | x :: s' =>
      if cset_mem i c x then orElse (star_greedy c s' k) (k s) else k s
  | [] => k s
  end.

Fixpoint star_lazy (c : cset) (s : str) (k : str -> option R) : option R :=
  match s with
  | x :: s' =>
      orElse (k s) (if cset_mem i c x then star_lazy c s' k else None)
  | [] => k s
  end.

(** [m r s cap k]: match [r] at the head of [s]; [cap] is capture
    group 1 so far; [k] continues with the rest of the pattern. *)
Fixpoint m (r : regex) (s : str) (cap : option str)
         (k : str -> option str -> option R) : option R :=
  match r with
  | Eps => k s cap
  | One c =>
      match s with
      | x :: s' => if cset_mem i c x then k s' cap else None
      | [] => None
      end
  | Star c => star_greedy c s (fun s' => k s' cap)
  | Plus c =>
      match s with
      | x :: s' =>
          if cset_mem i c x then star_greedy c s' (fun s'' => k s'' cap)
          else None
      | [] => None
      end
  | StarLazy c => star_lazy c s (fun s' => k s' cap)
  | Cat r1 r2 => m r1 s cap (fun s' cap' => m r2 s' cap' k)
  | Alt r1 r2 => orElse (m r1 s cap k) (m r2 s cap k)
  | Group r1 =>
      m r1 s cap
        (fun s' _ => k s' (Some (take (length s - length s')%nat s)))
  end.
End Matcher.

(** The result of one successful match. *)
Record MatchResult : Type := {
  matched : str;            (* match[0] *)
  group1 : option str;      (* match[1] *)
}.

(** Match at the head of [s]: the match and its length. *)
Definition exec_here (i : bool) (r : regex) (s : str) : option MatchResult :=
  m i r s None
    (fun s' cap =>
       Some {| matched := take (length s - length s')%nat s; group1 := cap |}).

(** [s.match(r)] without the [g] flag: the leftmost match. *)
Fixpoint exec (i : bool) (r : regex) (s : str) : option MatchResult :=
  match exec_here i r s with
  | Some res => Some res
  | None => match s with _ :: s' => exec i r s' | [] => None end
  end.

(** [r.test(s)] *)
Definition test (i : bool) (r : regex) (s : str) : bool :=
  match exec i r s with Some _ => true | None => false end.

(** [s.match(r) || []] with the [g] flag: the matched substrings, left
    to right.  [skip] counts the code units of [s] still covered by the
    previous match; after an empty match the engine moves on by one. *)
Fixpoint matchAll_from (i : bool) (r : regex) (s : str) (skip : nat) : list str :=
  match skip with
  | S n => match s with _ :: s' => matchAll_from i r s' n | [] => [] end
  | O =>
      match exec_here i r s with
      | Some res =>
          matched res ::
            match s with
            | _ :: s' => matchAll_from i r s' (length (matched res) - 1)%nat
            | [] => []
            end
      | None =>
          match s with _ :: s' => matchAll_from i r s' 0%nat | [] => [] end
      end
  end.

Definition matchAll (i : bool) (r : regex) (s : str) : list str :=
  matchAll_from i r s 0%nat.

(** [s.replace(r, repl)] with the [g] flag and a replacement without
    [$] patterns. *)
Fixpoint replaceAll_from (i : bool) (r : regex) (repl : str) (s : str)
         (skip : nat) : str :=
  match skip with
  | S n => match s with _ :: s' => replaceAll_from i r repl s' n | [] => [] end
  | O =>
      match exec_here i r s with
      | Some res =>
          repl ++
            match s with
            | x :: s' =>
                (match matched res with [] => [x] | _ :: _ => [] end)
                  ++ replaceAll_from i r repl s' (length (matched res) - 1)%nat
            | [] => []
            end
      | None =>
          match s with
          | x :: s' => x :: replaceAll_from i r repl s' 0%nat
          | [] => []
          end
      end
  end.

Definition replaceAll (i : bool) (r : regex) (repl : str) (s : str) : str :=
  replaceAll_from i r repl s 0%nat.

(** A literal run of ASCII characters of a pattern. *)
Definition lit (s : string) : regex :=
  fold_right (fun a r => Cat (One (CChar (N_of_ascii a))) r) Eps
             (list_ascii_of_string s).

(** Concatenation of the pieces of a pattern. *)
Definition cat (rs : list regex) : regex := fold_right Cat Eps rs.

Definition noneOf (s : string) : cset := CNoneOf (js s).
(** The class of the two quote characters, written with their codes. *)
Definition quote : cset := CAnyOf [34%N; 39%N].
Definition notQuote : cset := CNoneOf [34%N; 39%N].

(** The strings a pattern matches, without the priorities of the engine:
    what the matcher is sound and complete for. *)
Inductive Matches (i : bool) : regex -> str -> Prop :=
| MEps : Matches i Eps []
| MOne c x : cset_mem i c x = true -> Matches i (One c) [x]
| MStar c s : Forall (fun x => cset_mem i c x = true) s -> Matches i (Star c) s
| MPlus c x s :
    cset_mem i c x = true -> Forall (fun x => cset_mem i c x = true) s ->
    Matches i (Plus c) (x :: s)
| MStarLazy c s :
    Forall (fun x => cset_mem i c x = true) s -> Matches i (StarLazy c) s
| MCat r1 r2 s1 s2 :
    Matches i r1 s1 -> Matches i r2 s2 -> Matches i (Cat r1 r2) (s1 ++ s2)
| MAltL r1 r2 s : Matches i r1 s -> Matches i (Alt r1 r2) s
| MAltR r1 r2 s : Matches i r2 s -> Matches i (Alt r1 r2) s
| MGroup r s : Matches i r s -> Matches i (Group r) s.

End RegExp.
Import RegExp.

(* ===================================================================== *)
(** ** The platform's URL parser *)
(* ===================================================================== *)

(** [new URL(s)] is a platform primitive, not code of this repository: the
    extractor below takes the parser as a parameter, and every general
    theorem holds for any parser.  [URL.new_URL] is a model of the URL
    Standard's parser (no base URL) that closed examples run on.  It
    follows the standard on this fragment: schemes other than [file];
    hosts that are ASCII, carry no percent escape, are no IPv6 literal and
    have no [xn--] label.  Outside of the fragment the outcome is
    [Unmodelled]. *)
Module URL.

Record t : Type := {
  scheme : str;            (* lower case, without the colon *)
  hostname : str;
}.

Inductive outcome : Type :=
| Parsed (u : t)
| Failure                  (* the constructor throws TypeError *)
| Unmodelled.              (* outside of the modelled fragment *)

Definition isAlpha (c : N) : bool :=
  ((65 <=? c) && (c <=? 90) || (97 <=? c) && (c <=? 122))%N.
Definition isDigit (c : N) : bool := ((48 <=? c) && (c <=? 57))%N.
Definition lower (c : N) : N :=
  if ((65 <=? c) && (c <=? 90))%N then (c + 32)%N else c.
Definition isC0OrSpace (c : N) : bool := (c <=? 32)%N.
Definition isTabOrNewline (c : N) : bool :=
  ((c =? 9) || (c =? 10) || (c =? 13))%N.

Fixpoint dropWhile (p : N -> bool) (s : str) : str :=
  match s with
  | c :: s' => if p c then dropWhile p s' else s
  | [] => []
  end.

(** [break p s]: the longest prefix without a [p] character, and the
    rest (which starts with the [p] character, if any). *)
Fixpoint break (p : N -> bool) (s : str) : str * str :=
  match s with
  | c :: s' =>
      if p c then ([], s)
      else let '(a, b) := break p s' in (c :: a, b)
  | [] => ([], [])
  end.

(** Split at each dot. *)
Fixpoint labels (s : str) (cur : str) : list str :=
  match s with
  | c :: s' =>
      if (c =? 46)%N then rev cur :: labels s' [] else labels s' (c :: cur)
  | [] => [rev cur]
  end.

(** The input with leading and trailing C0 controls and spaces removed,
    and then every tab and newline removed. *)
Definition clean (s : str) : str :=
  filter (fun c => negb (isTabOrNewline c))
         (rev (dropWhile isC0OrSpace (rev (dropWhile isC0OrSpace s)))).

(** Scheme state: letters, digits, [+], [-] and [.] up to the colon. *)
Fixpoint schemeRest (s : str) (acc : str) : option (str * str) :=
  match s with
  | c :: s' =>
      if (c =? 58)%N then Some (rev acc, s')
      else if (isAlpha c || isDigit c || (c =? 43) || (c =? 45) || (c =? 46))%N
           then schemeRest s' (lower c :: acc)
           else None
  | [] => None
  end.

Definition parseScheme (s : str) : option (str * str) :=
  match s with
  | c :: _ => if isAlpha c then schemeRest s [] else None
  | [] => None
  end.

Definition isSpecial (sch : str) : bool :=
  existsb (str_eqb sch) [js "http"; js "https"; js "ws"; js "wss"; js "ftp"].

Definition isForbiddenHost (c : N) : bool :=
  existsb (N.eqb c) [0; 9; 10; 13; 32; 35; 47; 58; 60; 62; 63; 64; 91; 92; 93; 94; 124]%N.

Definition isForbiddenDomain (c : N) : bool :=
  (isForbiddenHost c || (c <=? 31) || (c =? 37) || (c =? 127))%N.

(** Digits of a number in radix 8, 10 or 16. *)
Definition digitValue (radix : N) (c : N) : option N :=
  let v := if isDigit c then Some (c - 48)%N
           else if ((97 <=? c) && (c <=? 102))%N then Some (c - 87)%N
           else if ((65 <=? c) && (c <=? 70))%N then Some (c - 55)%N
           else None in
  match v with
  | Some d => if (d <? radix)%N then Some d else None
  | None => None
  end.

Fixpoint number (radix : N) (s : str) (acc : N) : option N :=
  match s with
  | c :: s' =>
      match digitValue radix c with
      | Some d => number radix s' (acc * radix + d)%N
      | None => None
      end
  | [] => Some acc
  end.

(** The IPv4 number parser: [0x] prefix for hexadecimal, a leading [0]
    for octal, decimal otherwise. *)
Definition ipv4Number (s : str) : option N :=
  match s with
  | [] => None
  | 48%N :: (120%N :: s' | 88%N :: s') => number 16 s' 0
  | 48%N :: (_ :: _) as s' => number 8 s' 0
  | _ => number 10 s 0
  end.

Definition dropLastEmpty (parts : list str) : list str :=
  match rev parts with
  | [] :: (_ :: _) as r => rev r
  | _ => parts
  end.

Definition endsInNumber (host : str) : bool :=
  match rev (labels host []) with
  | [] :: [] => false
  | [] :: l :: _ | l :: _ =>
      match l with
      | [] => false
      | _ => forallb isDigit l || bool_decide (is_Some (ipv4Number l))
      end
  | [] => false
  end.

Fixpoint ipv4Value (nums : list N) (slots : nat) : option N :=
  match nums with
  | [] => None
  | [lastn] => if (lastn <? 256 ^ N.of_nat slots)%N then Some lastn else None
  | n :: rest =>
      match slots with
      | S k =>
          if (n <=? 255)%N then
            match ipv4Value rest k with
            | Some v => Some (n * 256 ^ N.of_nat k + v)%N
            | None => None
            end
          else None
      | O => None
      end
  end.

Definition ipv4 (host : str) : option str :=
  let parts := dropLastEmpty (labels host []) in
  if (4 <? length parts)%nat then None
  else
    match mapM ipv4Number parts with
    | None => None
    | Some nums =>
        match ipv4Value nums 4 with
        | Some v =>
            Some (ofN (v / 16777216) ++ js "." ++ ofN (v / 65536 mod 256)
                  ++ js "." ++ ofN (v / 256 mod 256) ++ js "." ++ ofN (v mod 256))%N
        | None => None
        end
    end.

(** The host parser for a special scheme. *)
Definition parseDomain (host : str) : option (option str) :=
  match host with
  | 91%N :: _ => None
  | _ =>
      if existsb (fun c => (128 <=? c) || (c =? 37))%N host then None
      else
        let h := map lower host in
        if existsb isForbiddenDomain h then Some None
        else if existsb (startsWith (js "xn--")) (labels h []) then None
        else if endsInNumber h then Some (ipv4 h)
        else Some (Some h)
  end.

(** The host parser for any other scheme (an opaque host). *)
Definition parseOpaqueHost (host : str) : option (option str) :=
  match host with
  | 91%N :: _ => None
  | _ =>
      if existsb (fun c => (128 <=? c) || (c <=? 31) || (c =? 37) || (c =? 127))%N host
      then None
      else if existsb isForbiddenHost host then Some None
      else Some (Some host)
  end.

Definition validPort (s : str) : bool :=
  forallb isDigit s
  && match number 10 s 0 with Some n => (n <=? 65535)%N | None => false end.

(** Authority, host and port states on the text after the slashes. *)
Definition parseAuthority (special : bool) (sch : str) (s : str) : outcome :=
  let isEnd c := ((c =? 47) || (c =? 63) || (c =? 35) || special && (c =? 92))%N in
  let authority := fst (break isEnd s) in
  let '(afterAt, beforeAt) := break (N.eqb 64) (rev authority) in
  let hostport := rev afterAt in
  match beforeAt, hostport with
  | _ :: _, [] => Failure
  | _, 91%N :: _ => Unmodelled
  | _, _ =>
      let '(host, port) := break (N.eqb 58) hostport in
      match host, port with
      | [], _ :: _ => Failure
      | [], [] =>
          if special then Failure
          else Parsed {| scheme := sch; hostname := [] |}
      | _, _ =>
          if validPort (tail port) then
            match (if special then parseDomain host else parseOpaqueHost host) with
            | None => Unmodelled
            | Some None => Failure
            | Some (Some h) => Parsed {| scheme := sch; hostname := h |}
            end
          else Failure
      end
  end.

Definition isSlash (special : bool) (c : N) : bool :=
  ((c =? 47) || special && (c =? 92))%N.

Definition parse (input : str) : outcome :=
  match parseScheme (clean input) with
  | None => Failure
  | Some (sch, rest) =>
      if str_eqb sch (js "file") then Unmodelled
      else if isSpecial sch then
        parseAuthority true sch (dropWhile (isSlash true) rest)
      else
        match rest with
        | 47%N :: 47%N :: rest' => parseAuthority false sch rest'
        | _ => Parsed {| scheme := sch; hostname := [] |}
        end
  end.

Definition new_URL (input : str) : option t :=
  match parse input with
  | Parsed u => Some u
  | Failure | Unmodelled => None
  end.

End URL.

(* ===================================================================== *)
(** ** worker.ts: the metrics extractor *)
(* ===================================================================== *)

Record PageMetrics : Type := {
  url : str;
  title : str;
  description : str;
  h1Count : Z;
  h2Count : Z;
  h3Count : Z;
  imgCount : Z;
  imgWithAltCount : Z;
  scriptCount : Z;
  stylesheetCount : Z;
  inlineStyleCount : Z;
  htmlLength : Z;
  hasViewport : bool;
  hasLang : bool;
  hasCanonical : bool;
  hasRobots : bool;
  hasOpenGraph : bool;
  hasStructuredData : bool;
  hasCharset : bool;
  isHttps : bool;
  linkCount : Z;
  internalLinkCount : Z;
  externalLinkCount : Z;
  hasH1 : bool;
  uniqueH1 : bool;
  textToHtmlRatio : Z;
}.

(** [array.length] *)
Definition len {A} (l : list A) : Z := Z.of_nat (length l).

(** [Math.round]: the nearest integer, a half going up.  The quotient of
    the source is a double; the model computes it exactly. *)
Definition Math_round (q : Q) : Z := Qfloor (q + (1 # 2)).

(** The patterns of [extractMetrics], in the order of the source. *)
Module Pat.
(* In the comments, Q is the class of the two quote characters and
   [^Q] its complement. *)
Definition tagOpen (name : string) : regex :=
  cat [lit name; Star (noneOf ">"); lit ">"].

(* /<title[^>]*>([^<]* )<\/title>/i *)
Definition title : regex :=
  cat [tagOpen "<title"; Group (Star (noneOf "<")); lit "</title>"].
(* /<meta\s+name=QdescriptionQ\s+content=Q([^Q]* )Q/i *)
Definition description : regex :=
  cat [lit "<meta"; Plus CSpace; lit "name="; One quote; lit "description";
       One quote; Plus CSpace; lit "content="; One quote;
       Group (Star notQuote); One quote].
(* /<h1[^>]*>([^<]* )<\/h1>/gi *)
Definition h1 : regex :=
  cat [tagOpen "<h1"; Group (Star (noneOf "<")); lit "</h1>"].
(* /<h2[^>]*>/gi, /<h3[^>]*>/gi *)
Definition h2 : regex := tagOpen "<h2".
Definition h3 : regex := tagOpen "<h3".
(* /<[^>]*>/g *)
Definition anyTag : regex := tagOpen "<".
(* /<img[^>]*>/gi *)
Definition img : regex := tagOpen "<img".
(* /alt\s*=\s*Q[^Q]+Q/i *)
Definition alt : regex :=
  cat [lit "alt"; Star CSpace; lit "="; Star CSpace; One quote;
       Plus notQuote; One quote].
(* /<script[^>]*>/gi *)
Definition script : regex := tagOpen "<script".
(* /<link[^>]*rel=QstylesheetQ[^>]*>/gi *)
Definition stylesheet : regex :=
  cat [lit "<link"; Star (noneOf ">"); lit "rel="; One quote;
       lit "stylesheet"; One quote; Star (noneOf ">"); lit ">"].
(* /<style[^>]*>/gi *)
Definition style : regex := tagOpen "<style".
(* /<meta[^>]*name=QviewportQ/i *)
Definition viewport : regex :=
  cat [lit "<meta"; Star (noneOf ">"); lit "name="; One quote;
       lit "viewport"; One quote].
(* /<meta[^>]*charset/i *)
Definition charset : regex :=
  cat [lit "<meta"; Star (noneOf ">"); lit "charset"].
(* /<link[^>]*rel=QcanonicalQ/i *)
Definition canonical : regex :=
  cat [lit "<link"; Star (noneOf ">"); lit "rel="; One quote;
       lit "canonical"; One quote].
(* /<meta[^>]*name=QrobotsQ/i *)
Definition robots : regex :=
  cat [lit "<meta"; Star (noneOf ">"); lit "name="; One quote;
       lit "robots"; One quote].
(* /<meta[^>]*property=Qog:/i *)
Definition openGraph : regex :=
  cat [lit "<meta"; Star (noneOf ">"); lit "property="; One quote; lit "og:"].
(* /<script[^>]*type=Qapplication\/ld\+jsonQ/i *)
Definition jsonLd : regex :=
  cat [lit "<script"; Star (noneOf ">"); lit "type="; One quote;
       lit "application/ld+json"; One quote].
(* /itemscope|itemtype/i *)
Definition microdata : regex := Alt (lit "itemscope") (lit "itemtype").
(* /<html[^>]*lang=/i *)
Definition lang : regex := cat [lit "<html"; Star (noneOf ">"); lit "lang="].
(* /<a[^>]*href=Q([^Q]* )Q/gi *)
Definition link : regex :=
  cat [lit "<a"; Star (noneOf ">"); lit "href="; One quote;
       Group (Star notQuote); One quote].
(* /href=Q([^Q]* )Q/i *)
Definition href : regex :=
  cat [lit "href="; One quote; Group (Star notQuote); One quote].
(* /<script[^>]*>[\s\S]*?<\/script>/gi *)
Definition scriptBlock : regex :=
  cat [tagOpen "<script"; StarLazy CAll; lit "</script>"].
(* /<style[^>]*>[\s\S]*?<\/style>/gi *)
Definition styleBlock : regex :=
  cat [tagOpen "<style"; StarLazy CAll; lit "</style>"].
(* /<[^>]+>/g *)
Definition nonEmptyTag : regex := cat [lit "<"; Plus (noneOf ">"); lit ">"].
(* /\s+/g *)
Definition spaces : regex := Plus CSpace.
End Pat.

(** [match[1]] of a successful match (an empty string stands for a group
    that did not take part, which no pattern of the source allows). *)
Definition capture (res : MatchResult) : str := default [] (group1 res).

(** [h1Tags]: the matches of [Pat.h1] in the markup, or the empty array. *)
Definition h1Tags (html : str) : list str := matchAll true Pat.h1 html.

(** The text of a matched H1: the tag with every [Pat.anyTag] removed,
    trimmed. *)
Definition h1Text (tag : str) : str := trim (replaceAll false Pat.anyTag [] tag).

(** [new Set(h1Tags.map(...))] *)
Definition uniqueH1Values (html : str) : gset str :=
  list_to_set (map h1Text (h1Tags html)).

(** [linkTags]: the matches of [Pat.link] in the markup, or the empty
    array. *)
Definition linkTags (html : str) : list str := matchAll true Pat.link html.

Section Extractor.
(** [new URL(s)]; [None] when the constructor throws. *)
Variable new_URL : str -> option URL.t.

(** The body of [linkTags.forEach]: the counters are the pair
    (internalLinkCount, externalLinkCount). *)
Definition countLink (urlObj : URL.t) (counts : Z * Z) (link : str) : Z * Z :=
  let '(internalLinkCount, externalLinkCount) := counts in
  match exec true Pat.href link with
  | Some hrefMatch =>
      let href := capture hrefMatch in
      if startsWith (js "http") href then
        match new_URL href with
        | Some linkUrl =>
            if str_eqb (URL.hostname linkUrl) (URL.hostname urlObj)
            then (internalLinkCount + 1, externalLinkCount)
            else (internalLinkCount, externalLinkCount + 1)
        | None => counts                      (* catch (e) { } *)
        end
      else if startsWith (js "/") href || negb (startsWith (js "#") href)
      then (internalLinkCount + 1, externalLinkCount)
      else counts
  | None => counts
  end.

Definition countLinks (urlObj : URL.t) (links : list str) : Z * Z :=
  fold_left (countLink urlObj) links (0, 0).

(** The text of the page: script and style blocks removed, tags replaced
    by a space, white space collapsed, trimmed. *)
Definition textContent (html : str) : str :=
  trim (replaceAll false Pat.spaces (js " ")
         (replaceAll false Pat.nonEmptyTag (js " ")
           (replaceAll true Pat.styleBlock []
             (replaceAll true Pat.scriptBlock [] html)))).

Definition extractMetrics (html : str) (url : str) : option PageMetrics :=
  let titleMatch := exec true Pat.title html in
  let title := match titleMatch with Some r => trim (capture r) | None => [] end in
  let descMatch := exec true Pat.description html in
  let description := match descMatch with Some r => trim (capture r) | None => [] end in
  let h1Tags := h1Tags html in
  let h2Tags := matchAll true Pat.h2 html in
  let h3Tags := matchAll true Pat.h3 html in
  let uniqueH1Values := uniqueH1Values html in
  let imgTags := matchAll true Pat.img html in
  let imgWithAlt := List.filter (test true Pat.alt) imgTags in
  let scriptTags := matchAll true Pat.script html in
  let stylesheetTags := matchAll true Pat.stylesheet html in
  let inlineStyles := matchAll true Pat.style html in
  let hasViewport := test true Pat.viewport html in
  let hasCharset := test true Pat.charset html in
  let hasCanonical := test true Pat.canonical html in
  let hasRobots := test true Pat.robots html in
  let hasOpenGraph := test true Pat.openGraph html in
  let hasStructuredData :=
    test true Pat.jsonLd html || test true Pat.microdata html in
  let hasLang := test true Pat.lang html in
  let isHttps := startsWith (js "https://") url in
  let linkTags := linkTags html in
  match new_URL url with
  | None => None                              (* new URL(url) throws *)
  | Some urlObj =>
      let '(internalLinkCount, externalLinkCount) := countLinks urlObj linkTags in
      let textContent := textContent html in
      let textToHtmlRatio : Q :=
        if 0 <? len html
        then ((inject_Z (len textContent) / inject_Z (len html)) * 100)%Q
        else 0%Q in
      Some {|
        url := url;
        title := title;
        description := description;
        h1Count := len h1Tags;
        h2Count := len h2Tags;
        h3Count := len h3Tags;
        imgCount := len imgTags;
        imgWithAltCount := len imgWithAlt;
        scriptCount := len scriptTags;
        stylesheetCount := len stylesheetTags;
        inlineStyleCount := len inlineStyles;
        htmlLength := len html;
        hasViewport := hasViewport;
        hasLang := hasLang;
        hasCanonical := hasCanonical;
        hasRobots := hasRobots;
        hasOpenGraph := hasOpenGraph;
        hasStructuredData := hasStructuredData;
        hasCharset := hasCharset;
        isHttps := isHttps;
        linkCount := len linkTags;
        internalLinkCount := internalLinkCount;
        externalLinkCount := externalLinkCount;
        hasH1 := 0 <? len h1Tags;
        uniqueH1 := (size uniqueH1Values =? 1)%nat && (0 <? len h1Tags);
        textToHtmlRatio := Math_round textToHtmlRatio;
      |}
  end.
End Extractor.

(** [handleAnalyze]'s guard on the request's URL. *)
Definition validUrlPrefix (targetUrl : str) : bool :=
  truthy targetUrl
  && (startsWith (js "http://") targetUrl || startsWith (js "https://") targetUrl).

(* ===================================================================== *)
(** ** worker.ts: the fallback scorer *)
(* ===================================================================== *)

Module Fallback.

Inductive FindingType : Type := positive | warning | critical.
Inductive Category : Type := seo | performance | accessibility | best_practices.
Inductive Priority : Type := high | medium | low.

Module Finding.
Record t : Type := {
  type : FindingType;
  category : Category;
  title : str;
  description : str;
}.
End Finding.

Module Recommendation.
Record t : Type := {
  priority : Priority;
  title : str;
  description : str;
  impact : str;
}.
End Recommendation.

Module Scores.
Record t : Type := {
  seo : Z;
  performance : Z;
  accessibility : Z;
  bestPractices : Z;
}.
End Scores.

Record Analysis : Type := {
  scores : Scores.t;
  findings : list Finding.t;
  recommendations : list Recommendation.t;
  summary : str;
}.

(** [String(n)] for an integer. *)
Definition ofZ (z : Z) : str :=
  if z <? 0 then js "-" ++ ofN (Z.abs_N z) else ofN (Z.to_N z).

(** [a > b] on numbers. *)
Definition gtQ (a b : Q) : bool := negb (Qle_bool a b).

(** [if (c) list.push(x)] *)
Definition pushIf {A} (c : bool) (x : A) (l : list A) : list A :=
  if c then l ++ [x] else l.

Definition isCritical (f : Finding.t) : bool :=
  match Finding.type f with critical => true | _ => false end.
Definition isWarning (f : Finding.t) : bool :=
  match Finding.type f with warning => true | _ => false end.

Definition createFallbackAnalysis (metrics : PageMetrics) : Analysis :=
  let seoScore := 50 in
  let seoScore := if truthy (title metrics) then seoScore + 10 else seoScore in
  let seoScore := if truthy (description metrics) then seoScore + 10 else seoScore in
  let seoScore := if hasH1 metrics then seoScore + 10 else seoScore in
  let seoScore := if hasCanonical metrics then seoScore + 5 else seoScore in
  let seoScore := if hasOpenGraph metrics then seoScore + 5 else seoScore in
  let seoScore := if uniqueH1 metrics then seoScore + 10 else seoScore in

  let perfScore := 70 in
  let perfScore := if htmlLength metrics <? 50000 then perfScore + 10 else perfScore in
  let perfScore := if scriptCount metrics <? 10 then perfScore + 10 else perfScore in
  let perfScore := if inlineStyleCount metrics =? 0 then perfScore + 10 else perfScore in

  let a11yScore := 50 in
  let a11yScore :=
    if (0 <? imgCount metrics) && (imgWithAltCount metrics =? imgCount metrics)
    then a11yScore + 30
    else if gtQ (inject_Z (imgWithAltCount metrics)) (inject_Z (imgCount metrics) / 2)
         then a11yScore + 15
         else a11yScore in
  let a11yScore := if hasLang metrics then a11yScore + 10 else a11yScore in
  let a11yScore := if hasViewport metrics then a11yScore + 10 else a11yScore in

  let bestPracticesScore := 60 in
  let bestPracticesScore :=
    if isHttps metrics then bestPracticesScore + 15 else bestPracticesScore in
  let bestPracticesScore :=
    if hasCharset metrics then bestPracticesScore + 10 else bestPracticesScore in
  let bestPracticesScore :=
    if hasViewport metrics then bestPracticesScore + 15 else bestPracticesScore in

  let findings : list Finding.t := [] in
  let findings :=
    pushIf (negb (truthy (title metrics)))
      {| Finding.type := critical; Finding.category := seo; Finding.title := js "Missing Title";
         Finding.description := js "Page has no title tag" |} findings in
  let findings :=
    pushIf (negb (truthy (description metrics)))
      {| Finding.type := warning; Finding.category := seo; Finding.title := js "Missing Meta Description";
         Finding.description := js "No meta description found" |} findings in
  let findings :=
    pushIf (negb (hasH1 metrics))
      {| Finding.type := critical; Finding.category := seo; Finding.title := js "Missing H1";
         Finding.description := js "Page has no H1 heading" |} findings in
  let findings :=
    pushIf (imgWithAltCount metrics <? imgCount metrics)
      {| Finding.type := warning; Finding.category := accessibility; Finding.title := js "Missing Alt Text";
         Finding.description :=
           ofZ (imgCount metrics - imgWithAltCount metrics)
             ++ js " images missing alt text" |} findings in
  let findings :=
    pushIf (negb (isHttps metrics))
      {| Finding.type := critical; Finding.category := best_practices; Finding.title := js "Not HTTPS";
         Finding.description := js "Site is not using HTTPS" |} findings in
  let findings :=
    pushIf (isHttps metrics)
      {| Finding.type := positive; Finding.category := best_practices; Finding.title := js "Using HTTPS";
         Finding.description := js "Site is secured with HTTPS" |} findings in
  let findings :=
    pushIf (truthy (title metrics))
      {| Finding.type := positive; Finding.category := seo; Finding.title := js "Has Title Tag";
         Finding.description := js "Page has a title tag" |} findings in

  let recommendations : list Recommendation.t := [] in
  let recommendations :=
    pushIf (negb (hasCanonical metrics))
      {| Recommendation.priority := medium; Recommendation.title := js "Add Canonical URL";
         Recommendation.description := js "Add a canonical link tag to specify the preferred URL";
         Recommendation.impact := js "Helps prevent duplicate content issues" |} recommendations in
  let recommendations :=
    pushIf (negb (hasOpenGraph metrics))
      {| Recommendation.priority := medium; Recommendation.title := js "Add Open Graph Tags";
         Recommendation.description := js "Add OG tags for better social media sharing";
         Recommendation.impact := js "Improves social media presence" |} recommendations in
  let recommendations :=
    pushIf (15 <? scriptCount metrics)
      {| Recommendation.priority := high; Recommendation.title := js "Reduce Script Count";
         Recommendation.description := js "Too many script tags may slow page load";
         Recommendation.impact := js "Improves page load time" |} recommendations in
  let recommendations :=
    pushIf (negb (hasStructuredData metrics))
      {| Recommendation.priority := low; Recommendation.title := js "Add Structured Data";
         Recommendation.description := js "Implement schema.org markup for rich snippets";
         Recommendation.impact := js "Enhances search results display" |} recommendations in

  {| scores :=
       {| Scores.seo := Z.min seoScore 100;
          Scores.performance := Z.min perfScore 100;
          Scores.accessibility := Z.min a11yScore 100;
          Scores.bestPractices := Z.min bestPracticesScore 100 |};
     findings := findings;
     recommendations := recommendations;
     summary :=
       js "This website has "
         ++ ofN (N.of_nat (length (List.filter isCritical findings)))
         ++ js " critical issues and "
         ++ ofN (N.of_nat (length (List.filter isWarning findings)))
         ++ js " warnings. Focus on improving SEO fundamentals and accessibility."
  |}.

(** The point table as the specification words it: a base, a bonus per
    satisfied condition, a cap of 100. *)
Definition bonus (c : bool) (points : Z) : Z := if c then points else 0.

Definition spec_seo (m : PageMetrics) : Z :=
  Z.min 100
    (50 + bonus (truthy (title m)) 10 + bonus (truthy (description m)) 10
     + bonus (hasH1 m) 10 + bonus (hasCanonical m) 5
     + bonus (hasOpenGraph m) 5 + bonus (uniqueH1 m) 10).

Definition spec_performance (m : PageMetrics) : Z :=
  Z.min 100
    (70 + bonus (htmlLength m <? 50000) 10 + bonus (scriptCount m <? 10) 10
     + bonus (inlineStyleCount m =? 0) 10).

(** "+30 if imgCount > 0 and all images have alt; else +15 if the
    alt-covered count > imgCount/2": the half is compared without
    rounding, that is [imgCount < 2 * imgWithAltCount]. *)
Definition spec_altBonus (m : PageMetrics) : Z :=
  if (0 <? imgCount m) && (imgWithAltCount m =? imgCount m) then 30
  else if imgCount m <? 2 * imgWithAltCount m then 15
  else 0.

Definition spec_accessibility (m : PageMetrics) : Z :=
  Z.min 100
    (50 + spec_altBonus m + bonus (hasLang m) 10 + bonus (hasViewport m) 10).

Definition spec_bestPractices (m : PageMetrics) : Z :=
  Z.min 100
    (60 + bonus (isHttps m) 15 + bonus (hasCharset m) 10
     + bonus (hasViewport m) 15).

End Fallback.

(* ===================================================================== *)
(** ** worker.ts: the vitals normaliser *)
(* ===================================================================== *)

Module Vitals.

Inductive Status : Type := good | needs_improvement | poor | unavailable.
Inductive Source : Type := pagespeed | estimated | source_unavailable.

Record Metric : Type := {
  status : Status;
  value : str;
  score : option Q;
}.

Record CoreWebVitals : Type := {
  lcp : Metric;
  fid : Metric;
  cls : Metric;
  fcp : Metric;
  ttfb : Metric;
  speedIndex : option Q;
  performanceScore : option Z;
  source : Source;
}.

(** A well-formed response of the measurement API: an absent member is
    [None], and a field metric that is present carries its percentile. *)

(** One Lighthouse audit. *)
Module Audit.
Record t : Type := {
  score : option Q;
  displayValue : option str;
  numericValue : option Q;
}.
End Audit.

Record Audits : Type := {
  largest_contentful_paint : option Audit.t;
  max_potential_fid : option Audit.t;
  cumulative_layout_shift : option Audit.t;
  first_contentful_paint : option Audit.t;
  server_response_time : option Audit.t;
  speed_index : option Audit.t;
}.

Record FieldMetric : Type := { percentile : Q }.

Record FieldData : Type := {
  LARGEST_CONTENTFUL_PAINT_MS : option FieldMetric;
  FIRST_INPUT_DELAY_MS : option FieldMetric;
  CUMULATIVE_LAYOUT_SHIFT_SCORE : option FieldMetric;
  FIRST_CONTENTFUL_PAINT_MS : option FieldMetric;
}.

Record PageSpeedData : Type := {
  audits : option Audits;                     (* data.lighthouseResult?.audits *)
  categoryScore : option Q;  (* data.lighthouseResult?.categories?.performance?.score *)
  fieldMetrics : option FieldData;            (* data.loadingExperience?.metrics *)
}.

(** The thresholds 0.9 and 0.5 are compared exactly: a double is at
    least the double nearest to 9/10 exactly when it is at least 9/10. *)
Definition getStatus (score : option Q) : Status :=
  match score with
  | None => unavailable
  | Some score =>
      if Qle_bool (9 # 10) score then good
      else if Qle_bool (1 # 2) score then needs_improvement
      else poor
  end.

Fixpoint pow10 (d : nat) : Z :=
  match d with O => 1 | S d' => 10 * pow10 d' end.

(** [value.toFixed(d)], computed exactly. *)
Definition toFixed (d : nat) (x : Q) : str :=
  let neg := negb (Qle_bool 0 x) in
  let ax := if neg then Qopp x else x in
  let n := Qfloor (ax * inject_Z (pow10 d) + (1 # 2)) in
  let digits := ofN (Z.to_N n) in
  let digits := replicate (S d - length digits) 48%N ++ digits in
  let whole := take (length digits - d) digits in
  let frac := drop (length digits - d) digits in
  (if neg then js "-" else [])
    ++ whole ++ (match d with O => [] | S _ => js "." ++ frac end).

Definition formatMetric (value : Q) (unit : str) : str :=
  if str_eqb unit (js "millisecond") then Fallback.ofZ (Math_round value) ++ js "ms"
  else if str_eqb unit (js "unitless") then toFixed 3 value
  else toFixed 2 value ++ unit.

(** [audit?.displayValue || fallback] *)
Definition displayOr (audit : option Audit.t) (fallback : str) : str :=
  match audit with
  | Some a =>
      match Audit.displayValue a with
      | Some d => if truthy d then d else fallback
      | None => fallback
      end
  | None => fallback
  end.

(** [audit?.score] *)
Definition scoreOf (audit : option Audit.t) : option Q :=
  match audit with Some a => Audit.score a | None => None end.

Definition unavailableMetric (message : string) : Metric :=
  {| status := unavailable; value := js message; score := None |}.

Definition allUnavailable (message : string) : CoreWebVitals :=
  {| lcp := unavailableMetric message;
     fid := unavailableMetric message;
     cls := unavailableMetric message;
     fcp := unavailableMetric message;
     ttfb := unavailableMetric message;
     speedIndex := None;
     performanceScore := None;
     source := source_unavailable |}.

(** [fetchCoreWebVitals]: [response] is the outcome of the call to the
    measurement API, [None] when [fetch] rejects, the status is not ok or
    the body is not JSON (every path into the [catch]). *)
Definition fetchCoreWebVitals (apiKey : option str)
           (response : option PageSpeedData) : CoreWebVitals :=
  match apiKey with
  | None | Some [] => allUnavailable "API key required"
  | Some (_ :: _) =>
      match response with
      | None => allUnavailable "Measurement failed"
      | Some data =>
          let lighthouseMetrics := audits data in
          let fieldData := fieldMetrics data in
          let field (get : FieldData -> option FieldMetric) :=
            match fieldData with Some fd => get fd | None => None end in
          let lcp := field LARGEST_CONTENTFUL_PAINT_MS in
          let fid := field FIRST_INPUT_DELAY_MS in
          let cls := field CUMULATIVE_LAYOUT_SHIFT_SCORE in
          let fcp := field FIRST_CONTENTFUL_PAINT_MS in
          let audit (get : Audits -> option Audit.t) :=
            match lighthouseMetrics with Some a => get a | None => None end in
          let lcpAudit := audit largest_contentful_paint in
          let fidAudit := audit max_potential_fid in
          let clsAudit := audit cumulative_layout_shift in
          let fcpAudit := audit first_contentful_paint in
          let ttfbAudit := audit server_response_time in
          let speedIndex := audit speed_index in
          let performanceScore := categoryScore data in
          {| lcp :=
               {| status := getStatus (scoreOf lcpAudit);
                  value :=
                    displayOr lcpAudit
                      (match lcp with
                       | Some f => formatMetric (percentile f) (js "ms")
                       | None => js "N/A"
                       end);
                  score := scoreOf lcpAudit |};
             fid :=
               {| status := getStatus (scoreOf fidAudit);
                  value :=
                    displayOr fidAudit
                      (match fid with
                       | Some f => formatMetric (percentile f) (js "ms")
                       | None => js "N/A"
                       end);
                  score := scoreOf fidAudit |};
             cls :=
               {| status := getStatus (scoreOf clsAudit);
                  value :=
                    displayOr clsAudit
                      (match cls with
                       | Some f => formatMetric (percentile f / 100) []
                       | None => js "N/A"
                       end);
                  score := scoreOf clsAudit |};
             fcp :=
               {| status := getStatus (scoreOf fcpAudit);
                  value :=
                    displayOr fcpAudit
                      (match fcp with
                       | Some f => formatMetric (percentile f) (js "ms")
                       | None => js "N/A"
                       end);
                  score := scoreOf fcpAudit |};
             ttfb :=
               {| status := getStatus (scoreOf ttfbAudit);
                  value := displayOr ttfbAudit (js "N/A");
                  score := scoreOf ttfbAudit |};
             speedIndex :=
               match speedIndex with Some a => Audit.numericValue a | None => None end;
             performanceScore :=
               match performanceScore with
               | Some s => if Qeq_bool s 0 then None else Some (Math_round (s * 100))
               | None => None
               end;
             source := pagespeed |}
      end
  end.

End Vitals.

(* ===================================================================== *)
(** ** inspector-do.ts: the history store *)
(* ===================================================================== *)

Module InspectorDO.

Record Report : Type := {
  id : str;
  url : str;
  title : str;
  description : str;
  reportText : str;
  metrics : PageMetrics;
  createdAt : str;
}.

(** The object's state: the in-memory log [this.reports] and the value
    kept by [this.state.storage] under the key [reports]. *)
Record State : Type := {
  reports : list Report;
  storage : option (list Report);
}.

(** The constructor: [this.reports = stored || []], run under
    [blockConcurrencyWhile]. *)
Definition init (stored : option (list Report)) : State :=
  {| reports := default [] stored; storage := stored |}.

Record Request : Type := {
  pathname : str;
  method : str;
  json : option Report;        (* the parsed body; [None] if it is no JSON *)
}.

Inductive Body : Type :=
| Success                        (* {"success": true} *)
| ReportList (l : list Report)   (* JSON.stringify(this.reports) *)
| NotFound
| Error.                         (* {"error": String(error)} *)

Record Response : Type := {
  status : Z;
  body : Body;
}.

(** [addReport]: [putOk] tells whether [storage.put] resolves.  The
    result is [None] when the method throws. *)
Definition addReport (putOk : bool) (request : Request) (st : State)
  : State * option Response :=
  match json request with
  | None => (st, None)
  | Some report =>
      let reports := report :: reports st in                 (* unshift *)
      let reports :=
        if (50 <? length reports)%nat then take 50 reports else reports in
      if putOk
      then ({| reports := reports; storage := Some reports |},
            Some {| status := 200; body := Success |})
      else ({| reports := reports; storage := storage st |}, None)
  end.

Definition listReports (st : State) : Response :=
  {| status := 200; body := ReportList (reports st) |}.

(** [fetch]: the router and its [try]/[catch]. *)
Definition fetch (putOk : bool) (request : Request) (st : State)
  : State * Response :=
  if str_eqb (pathname request) (js "/add") && str_eqb (method request) (js "POST")
  then
    match addReport putOk request st with
    | (st', Some response) => (st', response)
    | (st', None) => (st', {| status := 500; body := Error |})
    end
  else if str_eqb (pathname request) (js "/list") && str_eqb (method request) (js "GET")
  then (st, listReports st)
  else (st, {| status := 404; body := NotFound |}).

(** The requests the worker sends. *)
Definition addRequest (report : Report) : Request :=
  {| pathname := js "/add"; method := js "POST"; json := Some report |}.
Definition listRequest : Request :=
  {| pathname := js "/list"; method := js "GET"; json := None |}.

(** [add(report)] and [list()] of the store, through [fetch]. *)
Definition add (putOk : bool) (report : Report) (st : State) : State * Response :=
  fetch putOk (addRequest report) st.
Definition list_ (st : State) : Response := snd (fetch true listRequest st).

(** Adds issued one after the other; each comes with the outcome of its
    write. *)
Definition addAll (ops : list (Report * bool)) (st : State) : State :=
  fold_left (fun st op => fst (add (snd op) (fst op) st)) ops st.

End InspectorDO.

(* ===================================================================== *)
(** ** Sample inputs *)
(* ===================================================================== *)

Module Samples.

Definition sourceUrl : str := js "https://example.com".

(** The scenario of the specification: no title, no meta description,
    one H1, three images without [alt], two scripts, no inline style, no
    [lang], a viewport and a charset. *)
Definition scenario : str :=
  js ("<html><head><meta charset='utf-8'>"
      ++ "<meta name='viewport' content='width=device-width'>"
      ++ "<script src='a.js'></script><script src='b.js'></script></head>"
      ++ "<body><h1>Hello</h1><img src='1.png'><img src='2.png'>"
      ++ "<img src='3.png'></body></html>")%string.

Definition twoEqualH1 : str := js "<h1>A</h1><h1>A</h1>".
Definition emptyH1 : str := js "<h1></h1>".
Definition twoDifferentH1 : str := js "<h1>A</h1><h1>B</h1>".

Definition upperSchemeLink : str := js "<a href='HTTPS://other.example/'>other</a>".
Definition ftpLink : str := js "<a href='ftp://other.example/file'>file</a>".
Definition schemeLinks : str :=
  js ("<a href='mailto:a@b.c'>m</a><a href='tel:+123'>t</a>"
      ++ "<a href='javascript:void(0)'>j</a>")%string.
(** An anchor with a [data-href] attribute before its [href]. *)
Definition dataHrefLink : str :=
  js "<a data-href='#x' href='mailto:a@b.c'>m</a>".
Definition mixedLinks : str :=
  js ("<a href='https://example.com/p'>same</a>"
      ++ "<a href='https://other.example/'>other</a>"
      ++ "<a href='http://'>broken</a><a href='/about'>root</a>"
      ++ "<a href='#x'>fragment</a>")%string.

(** A response that carries a lab audit and a field measurement of LCP,
    and a field measurement of FID without a lab display value. *)
Definition labAudit : Vitals.Audit.t :=
  {| Vitals.Audit.score := Some (95 # 100);
     Vitals.Audit.displayValue := Some (js "1.2 s");
     Vitals.Audit.numericValue := Some (1200 # 1) |}.

Definition labAndField : Vitals.PageSpeedData :=
  {| Vitals.audits :=
       Some {| Vitals.largest_contentful_paint := Some labAudit;
               Vitals.max_potential_fid := None;
               Vitals.cumulative_layout_shift := None;
               Vitals.first_contentful_paint := None;
               Vitals.server_response_time := None;
               Vitals.speed_index := None |};
     Vitals.categoryScore := Some (9 # 10);
     Vitals.fieldMetrics :=
       Some {| Vitals.LARGEST_CONTENTFUL_PAINT_MS := Some {| Vitals.percentile := 2500 # 1 |};
               Vitals.FIRST_INPUT_DELAY_MS := Some {| Vitals.percentile := 16 # 1 |};
               Vitals.CUMULATIVE_LAYOUT_SHIFT_SCORE := None;
               Vitals.FIRST_CONTENTFUL_PAINT_MS := None |} |}.

Definition exampleCom : URL.t :=
  {| URL.scheme := js "https"; URL.hostname := js "example.com" |}.
Definition otherExample : URL.t :=
  {| URL.scheme := js "https"; URL.hostname := js "other.example" |}.

(** Link tags as [linkTags] cuts them out of the markup. *)
Definition otherLinkTag : str := js "<a href='https://other.example/'".
Definition mailtoLinkTag : str := js "<a href='mailto:a@b.c'".

Definition noMetrics : PageMetrics :=
  {| url := []; title := []; description := [];
     h1Count := 0; h2Count := 0; h3Count := 0; imgCount := 0;
     imgWithAltCount := 0; scriptCount := 0; stylesheetCount := 0;
     inlineStyleCount := 0; htmlLength := 0; hasViewport := false;
     hasLang := false; hasCanonical := false; hasRobots := false;
     hasOpenGraph := false; hasStructuredData := false;
     hasCharset := false; isHttps := false; linkCount := 0;
     internalLinkCount := 0; externalLinkCount := 0; hasH1 := false;
     uniqueH1 := false; textToHtmlRatio := 0 |}.

(** The metrics of the scenario markup, as the extractor computes them. *)
Definition scenarioMetrics : PageMetrics :=
  Eval vm_compute in
    default noMetrics (extractMetrics URL.new_URL scenario sourceUrl).

Definition report (n : nat) : InspectorDO.Report :=
  {| InspectorDO.id := ofN (N.of_nat n);
     InspectorDO.url := sourceUrl;
     InspectorDO.title := [];
     InspectorDO.description := [];
     InspectorDO.reportText := [];
     InspectorDO.metrics := scenarioMetrics;
     InspectorDO.createdAt := [] |}.

(** Fifty-one adds; the write of the eighth fails. *)
Definition fiftyOneAdds : list (InspectorDO.Report * bool) :=
  map (fun n => (report n, negb (n =? 7)%nat)) (seq 0 51).

End Samples.

(* ===================================================================== *)
(** ** The rest of the two files *)
(* ===================================================================== *)

(** Requests served one after the other by one history object; each comes
    with the outcome of the write it may issue. *)
Definition serveAll (requests : list (InspectorDO.Request * bool))
           (st : InspectorDO.State) : InspectorDO.State :=
  fold_left (fun st rq => fst (InspectorDO.fetch (snd rq) (fst rq) st)) requests st.

(** The four status buckets, from worst to best. *)
Definition statusRank (s : Vitals.Status) : nat :=
  match s with
  | Vitals.unavailable => 0
  | Vitals.poor => 1
  | Vitals.needs_improvement => 2
  | Vitals.good => 3
  end.

(** The five metrics of a result, in the order of the record. *)
Definition metricsOf (v : Vitals.CoreWebVitals) : list Vitals.Metric :=
  [Vitals.lcp v; Vitals.fid v; Vitals.cls v; Vitals.fcp v; Vitals.ttfb v].

(* ===================================================================== *)
(** ** worker.ts: identity, static assets, the report pipeline, the router *)
(* ===================================================================== *)

Module Worker.

(** [s.endsWith(p)] *)
Definition endsWith (p s : str) : bool := startsWith (rev p) (rev s).

(** [s.includes(p)] *)
Fixpoint includes (p s : str) : bool :=
  startsWith p s || match s with _ :: s' => includes p s' | [] => false end.

(** The pattern of [getUserId]: the text [user_id=] and then one or more
    characters other than a semicolon, captured (no flag). *)
Definition userIdPattern : regex :=
  cat [lit "user_id="; Group (Plus (noneOf ";"))].

(** [getUserId]: [cookieHeader] is [request.headers.get('cookie')], and
    [randomUUID] the value [crypto.randomUUID()] would return. *)
Definition getUserId (cookieHeader : option str) (randomUUID : str) : str :=
  let cookies := default [] cookieHeader in
  match exec false userIdPattern cookies with
  | Some match_ => capture match_
  | None => randomUUID
  end.

(** The test before [Set-Cookie]: the header is absent or does not
    contain [user_id=]. *)
Definition isNewUser (cookieHeader : option str) : bool :=
  match cookieHeader with
  | Some c => negb (includes (js "user_id=") c)
  | None => true
  end.

(** The value of the [Set-Cookie] header. *)
Definition userCookie (userId : str) : str :=
  js "user_id=" ++ userId ++ js "; Path=/; Max-Age=31536000; SameSite=Lax".

Definition getContentType (path : str) : str :=
  if endsWith (js ".html") path then js "text/html"
  else if endsWith (js ".js") path then js "application/javascript"
  else if endsWith (js ".css") path then js "text/css"
  else if endsWith (js ".json") path then js "application/json"
  else if endsWith (js ".png") path then js "image/png"
  else if endsWith (js ".jpg") path || endsWith (js ".jpeg") path then js "image/jpeg"
  else if endsWith (js ".svg") path then js "image/svg+xml"
  else if endsWith (js ".ico") path then js "image/x-icon"
  else js "application/octet-stream".

(** A parsed JSON value; the members of a parsed object have distinct
    names. *)
#[warnings="-register-all"]
Inductive Json : Type :=
| JNull
| JBool (b : bool)
| JNum (q : Q)
| JStr (s : str)
| JArr (items : list Json)
| JObj (members : list (str * Json)).

(** JavaScript truthiness of a JSON value. *)
Definition jsonTruthy (j : Json) : bool :=
  match j with
  | JNull => false
  | JBool b => b
  | JNum q => negb (Qeq_bool q 0)
  | JStr s => truthy s
  | JArr _ | JObj _ => true
  end.

(** [!value.name]: [None] when the access throws (on [null]), otherwise
    whether the member is missing or falsy. *)
Definition memberFalsy (value : Json) (name : string) : option bool :=
  match value with
  | JNull => None
  | JObj members =>
      match List.find (fun kv => str_eqb (fst kv) (js name)) members with
      | Some (_, v) => Some (negb (jsonTruthy v))
      | None => Some true
      end
  | _ => Some true
  end.

(** What [analyzeWithAI] returns: the object the model sent, or the
    fallback analysis. *)
Inductive AnalysisValue : Type :=
| FromAI (analysis : Json)
| FromFallback (analysis : Fallback.Analysis).

(** The outcome of [ai.run]: it throws, or it returns an object whose
    [response] member may be absent. *)
Inductive AiOutcome : Type :=
| AiThrows
| AiResponse (response : option str).

(** The pattern that cuts the JSON out of the answer: an opening brace,
    anything (greedy), a closing brace. *)
Definition jsonPattern : regex := cat [lit "{"; Star CAll; lit "}"].

(** [response.response || '{}'] *)
Definition aiTextOf (response : option str) : str :=
  match response with
  | Some t => if truthy t then t else js "{}"
  | None => js "{}"
  end.

(** The outcome of the fetch of the page. *)
Inductive PageFetch : Type :=
| FetchRejects (error : str)                          (* fetch throws *)
| Fetched (ok : bool) (status : Z) (statusText : str)
          (text : str + str).                         (* the body, or text() throws *)

(** The bytes of a static asset. *)
Definition Asset : Type := list N.

Inductive Body : Type :=
| BodyNone                                   (* null *)
| BodyText (text : str)
| BodyError (message : str)                  (* {"error": message} *)
| BodyThrown                                 (* {"error": String(error)} of a caught exception *)
| BodyReport (report : InspectorDO.Report)   (* JSON.stringify(report) *)
| BodyStore (body : InspectorDO.Body)        (* the JSON the history object answered *)
| BodyAsset (asset : Asset).

Record Response : Type := {
  status : Z;
  contentType : option str;
  cors : bool;                               (* the three CORS headers *)
  setCookie : option str;
  body : Body;
}.

Record Request : Type := {
  method : str;
  pathname : str;                            (* new URL(request.url).pathname *)
  cookie : option str;                       (* request.headers.get('cookie') *)
  json : option (option str);                (* the body's [url] member: a string, or absent
                                                or falsy; [None] when reading it throws (no
                                                JSON, a null body) or it is a truthy value
                                                without [startsWith] *)
}.

Record Env : Type := {
  PAGESPEED_API_KEY : option str;
  INSPECTOR_DO : gmap str InspectorDO.State; (* the history objects, by user id *)
  STATIC_CONTENT : gmap str Asset;
}.

(** What the outside world answers during one request. *)
Record World : Type := {
  pageFetch : PageFetch;                     (* fetch(targetUrl) *)
  fetchTime : Z;                             (* Date.now() - startTime, for the prompt *)
  pageSpeed : option Vitals.PageSpeedData;   (* the measurement call *)
  ai : AiOutcome;                            (* env.AI.run *)
  reportId : str;                            (* crypto.randomUUID() for the report *)
  freshUserId : str;                         (* crypto.randomUUID() in getUserId *)
  now : str;                                 (* new Date().toISOString() *)
  putOk : bool;                              (* whether storage.put resolves *)
}.

(** The history object of a user: the one in the namespace, or a new one
    with empty storage. *)
Definition stub (env : Env) (userId : str) : InspectorDO.State :=
  default (InspectorDO.init None) (INSPECTOR_DO env !! userId).

Definition withStub (env : Env) (userId : str) (st : InspectorDO.State) : Env :=
  {| PAGESPEED_API_KEY := PAGESPEED_API_KEY env;
     INSPECTOR_DO := <[userId := st]> (INSPECTOR_DO env);
     STATIC_CONTENT := STATIC_CONTENT env |}.

Definition jsonResponse (st : Z) (b : Body) : Response :=
  {| status := st; contentType := Some (js "application/json"); cors := true;
     setCookie := None; body := b |}.

Definition withCookie (cookieHeader : option str) (userId : str) (r : Response)
  : Response :=
  if isNewUser cookieHeader
  then {| status := status r; contentType := contentType r; cors := cors r;
          setCookie := Some (userCookie userId); body := body r |}
  else r.

Definition handleCORS : Response :=
  {| status := 204; contentType := None; cors := true; setCookie := None;
     body := BodyNone |}.

Definition serveStaticAsset (env : Env) (request : Request) : Response :=
  let path := pathname request in
  let path :=
    if str_eqb path (js "/") || negb (includes (js ".") path)
    then js "/index.html" else path in
  match STATIC_CONTENT env !! drop 1 path with
  | None =>
      match STATIC_CONTENT env !! js "index.html" with
      | None =>
          {| status := 404; contentType := None; cors := false;
             setCookie := None; body := BodyText (js "Not Found") |}
      | Some indexAsset =>
          {| status := 200; contentType := Some (js "text/html"); cors := false;
             setCookie := None; body := BodyAsset indexAsset |}
      end
  | Some asset =>
      {| status := 200; contentType := Some (getContentType path); cors := false;
         setCookie := None; body := BodyAsset asset |}
  end.

Section Pipeline.
(** Platform functions. *)
Variable new_URL : str -> option URL.t.
Variable JSON_parse : str -> option Json.
Variable JSON_stringify : AnalysisValue -> Vitals.CoreWebVitals -> str.

(** [analyzeWithAI]: the answer of the model is an input; the model name,
    the prompts and the token budget are what the call sends out. *)
Definition analyzeWithAI (outcome : AiOutcome) (metrics : PageMetrics)
  : AnalysisValue :=
  let fallback := FromFallback (Fallback.createFallbackAnalysis metrics) in
  match outcome with
  | AiThrows => fallback
  | AiResponse response =>
      let aiText := aiTextOf response in
      match exec false jsonPattern aiText with
      | None => fallback
      | Some jsonMatch =>
          match JSON_parse (matched jsonMatch) with
          | None => fallback
          | Some analysis =>
              match memberFalsy analysis "scores" with
              | None => fallback
              | Some true => fallback
              | Some false =>
                  match memberFalsy analysis "findings" with
                  | None | Some true => fallback
                  | Some false =>
                      match memberFalsy analysis "recommendations" with
                      | None | Some true => fallback
                      | Some false => FromAI analysis
                      end
                  end
              end
          end
      end
  end.

(** [handleAnalyze]; [None] when an exception leaves the function. *)
Definition handleAnalyze (request : Request) (env : Env) (world : World)
  : option (Env * Response) :=
  match json request with
  | None => None
  | Some targetUrl =>
      let targetUrl' := default [] targetUrl in
      if negb (truthy targetUrl')
         || (negb (startsWith (js "http://") targetUrl')
             && negb (startsWith (js "https://") targetUrl'))
      then
        Some (env, jsonResponse 400
                     (BodyError (js "Invalid URL. Must start with http:// or https://")))
      else
        let fetched : str + str :=
          match pageFetch world with
          | FetchRejects error => inr error
          | Fetched ok st statusText text =>
              if ok then text
              else inr (js "Error: Failed to fetch page: " ++ Fallback.ofZ st
                          ++ js " " ++ statusText)
          end in
        match fetched with
        | inr error =>
            Some (env, jsonResponse 400
                         (BodyError (js "Failed to fetch URL: " ++ error)))
        | inl html =>
            let html :=
              if 200000 <? len html then take (Z.to_nat 200000) html else html in
            match extractMetrics new_URL html targetUrl' with
            | None => None
            | Some metrics =>
                let coreWebVitals :=
                  Vitals.fetchCoreWebVitals (PAGESPEED_API_KEY env) (pageSpeed world) in
                let analysis := analyzeWithAI (ai world) metrics in
                let report :=
                  {| InspectorDO.id := reportId world;
                     InspectorDO.url := targetUrl';
                     InspectorDO.title := title metrics;
                     InspectorDO.description := description metrics;
                     InspectorDO.reportText := JSON_stringify analysis coreWebVitals;
                     InspectorDO.metrics := metrics;
                     InspectorDO.createdAt := now world |} in
                let userId := getUserId (cookie request) (freshUserId world) in
                let '(st, _) :=
                  InspectorDO.fetch (putOk world) (InspectorDO.addRequest report)
                    (stub env userId) in
                Some (withStub env userId st,
                      withCookie (cookie request) userId
                        (jsonResponse 200 (BodyReport report)))
            end
        end
  end.

(** [handleHistory]; [None] when the answer of the object is no JSON. *)
Definition handleHistory (request : Request) (env : Env) (world : World)
  : option (Env * Response) :=
  let userId := getUserId (cookie request) (freshUserId world) in
  let '(st, response) :=
    InspectorDO.fetch (putOk world) InspectorDO.listRequest (stub env userId) in
  match InspectorDO.body response with
  | InspectorDO.NotFound => None
  | reports =>
      Some (withStub env userId st,
            withCookie (cookie request) userId (jsonResponse 200 (BodyStore reports)))
  end.

(** The worker's [fetch]: the router and its [try]/[catch]. *)
Definition fetch (request : Request) (env : Env) (world : World) : Env * Response :=
  if str_eqb (method request) (js "OPTIONS") then (env, handleCORS)
  else
    let handled :=
      if str_eqb (pathname request) (js "/api/analyze")
         && str_eqb (method request) (js "POST")
      then handleAnalyze request env world
      else if str_eqb (pathname request) (js "/api/history")
              && str_eqb (method request) (js "GET")
      then handleHistory request env world
      else Some (env, serveStaticAsset env request) in
    match handled with
    | Some result => result
    | None => (env, jsonResponse 500 BodyThrown)
    end.

End Pipeline.

(** The same world with another outcome of the store's write. *)
Definition withPutOk (world : World) (ok : bool) : World :=
  {| pageFetch := pageFetch world; fetchTime := fetchTime world;
     pageSpeed := pageSpeed world; ai := ai world; reportId := reportId world;
     freshUserId := freshUserId world; now := now world; putOk := ok |}.

End Worker.

(** Closed inputs for the worker: a first request of a new user for the
    scenario page, with a model that fails and no measurement key. *)
Module WorkerSamples.
Import Worker.

(** A parser that reads the empty object and nothing else. *)
Definition parse (text : str) : option Json :=
  if str_eqb text (js "{}") then Some (JObj []) else None.

(** The text of a report is not inspected by the instances. *)
Definition stringify (analysis : AnalysisValue) (vitals : Vitals.CoreWebVitals) : str :=
  match analysis with
  | FromAI _ => js "{ai}"
  | FromFallback _ => js "{fallback}"
  end.

Definition request : Request :=
  {| method := js "POST"; pathname := js "/api/analyze"; cookie := None;
     json := Some (Some Samples.sourceUrl) |}.

Definition env : Env :=
  {| PAGESPEED_API_KEY := None; INSPECTOR_DO := ∅; STATIC_CONTENT := ∅ |}.

Definition world : World :=
  {| pageFetch := Fetched true 200 (js "OK") (inl Samples.scenario);
     fetchTime := 120;
     pageSpeed := None;
     ai := AiThrows;
     reportId := js "r-1";
     freshUserId := js "u-1";
     now := js "2024-01-01T00:00:00.000Z";
     putOk := true |}.

Definition report : InspectorDO.Report :=
  {| InspectorDO.id := js "r-1";
     InspectorDO.url := Samples.sourceUrl;
     InspectorDO.title := [];
     InspectorDO.description := [];
     InspectorDO.reportText := js "{fallback}";
     InspectorDO.metrics := Samples.scenarioMetrics;
     InspectorDO.createdAt := js "2024-01-01T00:00:00.000Z" |}.

Definition env1 : Env :=
  withStub env (js "u-1")
    {| InspectorDO.reports := [report]; InspectorDO.storage := Some [report] |}.

Definition response1 : Response :=
  {| status := 200; contentType := Some (js "application/json"); cors := true;
     setCookie := Some (userCookie (js "u-1")); body := BodyReport report |}.

(** The next request of the same user, with the cookie just issued. *)
Definition historyRequest : Request :=
  {| method := js "GET"; pathname := js "/api/history";
     cookie := Some (js "user_id=u-1"); json := None |}.

End WorkerSamples.

(* ===================================================================== *)
(** * Properties *)
(* ===================================================================== *)

Lemma str_eqb_refl (s : str) : str_eqb s s = true.
Proof. unfold str_eqb. by apply bool_decide_eq_true_2. Qed.

Lemma str_eqb_eq (a b : str) : str_eqb a b = true <-> a = b.
Proof. unfold str_eqb. apply bool_decide_eq_true. Qed.

(** ** The matcher *)

Section Engine.
Context {R : Type}.
Variable i : bool.

Lemma orElse_Some (a b : option R) (x : R) :
  orElse a b = Some x -> a = Some x \/ b = Some x.
Proof. destruct a; cbn; auto. Qed.

Lemma orElse_is_Some_l (a b : option R) : is_Some a -> is_Some (orElse a b).
Proof. by intros [x ->]. Qed.

Lemma orElse_is_Some_r (a b : option R) : is_Some b -> is_Some (orElse a b).
Proof. destruct a; cbn; eauto. Qed.

Lemma star_greedy_sound c s (k : str -> option R) x :
  star_greedy i c s k = Some x ->
  exists s1 s2, s = s1 ++ s2 /\ Forall (fun y => cset_mem i c y = true) s1 /\ k s2 = Some x.
Proof.
  induction s as [|y s IH]; cbn; intros H.
  - exists [], []. auto.
  - destruct (cset_mem i c y) eqn:Hy; [|exists [], (y :: s); auto].
    apply orElse_Some in H as [H|H]; [|exists [], (y :: s); auto].
    destruct (IH H) as (s1 & s2 & -> & Hall & Hk).
    exists (y :: s1), s2. auto.
Qed.

Lemma star_lazy_sound c s (k : str -> option R) x :
  star_lazy i c s k = Some x ->
  exists s1 s2, s = s1 ++ s2 /\ Forall (fun y => cset_mem i c y = true) s1 /\ k s2 = Some x.
Proof.
  induction s as [|y s IH]; cbn; intros H.
  - exists [], []. auto.
  - apply orElse_Some in H as [H|H]; [exists [], (y :: s); auto|].
    destruct (cset_mem i c y) eqn:Hy; [|done].
    destruct (IH H) as (s1 & s2 & -> & Hall & Hk).
    exists (y :: s1), s2. auto.
Qed.

Lemma star_greedy_fallback c s (k : str -> option R) :
  is_Some (k s) -> is_Some (star_greedy i c s k).
Proof.
  intros Hk. destruct s as [|y s]; cbn; [done|].
  destruct (cset_mem i c y); [by apply orElse_is_Some_r|done].
Qed.

Lemma star_greedy_complete c s1 s2 (k : str -> option R) :
  Forall (fun y => cset_mem i c y = true) s1 -> is_Some (k s2) -> is_Some (star_greedy i c (s1 ++ s2) k).
Proof.
  intros Hall Hk. induction Hall as [|y s1 Hy _ IH]; cbn.
  - by apply star_greedy_fallback.
  - rewrite Hy. by apply orElse_is_Some_l.
Qed.

Lemma star_lazy_complete c s1 s2 (k : str -> option R) :
  Forall (fun y => cset_mem i c y = true) s1 -> is_Some (k s2) -> is_Some (star_lazy i c (s1 ++ s2) k).
Proof.
  intros Hall Hk. induction Hall as [|y s1 Hy _ IH]; cbn.
  - destruct s2; cbn; [done|]. by apply orElse_is_Some_l.
  - rewrite Hy. by apply orElse_is_Some_r.
Qed.

(** Soundness: a successful match splits the input into a string of the
    pattern and a rest that the continuation accepts. *)
Lemma m_sound r :
  forall s cap (k : str -> option str -> option R) x,
    m i r s cap k = Some x ->
    exists s1 s2 cap', s = s1 ++ s2 /\ Matches i r s1 /\ k s2 cap' = Some x.
Proof.
  induction r as [|c|c|c|c|r1 IH1 r2 IH2|r1 IH1 r2 IH2|r IH];
    intros s cap k x H; cbn in H.
  - exists [], s, cap. split; [done|]. split; [constructor|done].
  - destruct s as [|y s]; [done|]. destruct (cset_mem i c y) eqn:Hy; [|done].
    exists [y], s, cap. split; [done|]. split; [by constructor|done].
  - apply star_greedy_sound in H as (s1 & s2 & -> & Hall & Hk).
    exists s1, s2, cap. split; [done|]. split; [by constructor|done].
  - destruct s as [|y s]; [done|]. destruct (cset_mem i c y) eqn:Hy; [|done].
    apply star_greedy_sound in H as (s1 & s2 & -> & Hall & Hk).
    exists (y :: s1), s2, cap. split; [done|]. split; [by constructor|done].
  - apply star_lazy_sound in H as (s1 & s2 & -> & Hall & Hk).
    exists s1, s2, cap. split; [done|]. split; [by constructor|done].
  - apply IH1 in H as (s1 & s2 & cap1 & -> & H1 & H).
    apply IH2 in H as (s3 & s4 & cap2 & -> & H2 & H).
    exists (s1 ++ s3), s4, cap2. rewrite app_assoc.
    split; [done|]. split; [by constructor|done].
  - apply orElse_Some in H as [H|H].
    + apply IH1 in H as (s1 & s2 & cap' & -> & H1 & H).
      exists s1, s2, cap'. split; [done|]. split; [by apply MAltL|done].
    + apply IH2 in H as (s1 & s2 & cap' & -> & H2 & H).
      exists s1, s2, cap'. split; [done|]. split; [by apply MAltR|done].
  - apply IH in H as (s1 & s2 & cap' & -> & H1 & H).
    eexists s1, s2, _. split; [done|]. split; [by constructor|exact H].
Qed.

(** Completeness: where a string of the pattern is followed by a rest that
    the continuation accepts, the matcher succeeds. *)
Lemma m_complete r s1 :
  Matches i r s1 ->
  forall s2 cap (k : str -> option str -> option R),
    (forall cap', is_Some (k s2 cap')) ->
    is_Some (m i r (s1 ++ s2) cap k).
Proof.
  induction 1 as [|c y Hy|c s Hall|c y s Hy Hall|c s Hall
                  |r1 r2 s1 s3 _ IH1 _ IH2|r1 r2 s _ IH|r1 r2 s _ IH|r s _ IH];
    intros s2 cap k Hk; cbn.
  - apply Hk.
  - rewrite Hy. apply Hk.
  - apply star_greedy_complete; [done|apply Hk].
  - rewrite Hy. apply star_greedy_complete; [done|apply Hk].
  - apply star_lazy_complete; [done|apply Hk].
  - rewrite <- app_assoc. apply IH1. intros cap'. by apply IH2.
  - apply orElse_is_Some_l. by apply IH.
  - apply orElse_is_Some_r. by apply IH.
  - apply IH. intros cap'. apply Hk.
Qed.

End Engine.

Lemma Matches_Cat_inv i r1 r2 s :
  Matches i (Cat r1 r2) s ->
  exists s1 s2, s = s1 ++ s2 /\ Matches i r1 s1 /\ Matches i r2 s2.
Proof. inversion 1; subst. eauto. Qed.

Lemma exec_here_sound i r s res :
  exec_here i r s = Some res -> Matches i r (matched res).
Proof.
  unfold exec_here. intros H.
  apply m_sound in H as (s1 & s2 & cap' & -> & Hm & [= <-]). cbn.
  rewrite length_app, Nat.add_sub, take_app_length. done.
Qed.

Lemma exec_here_complete i r s : Matches i r s -> is_Some (exec_here i r s).
Proof.
  intros Hm. unfold exec_here.
  pose proof (m_complete i r s Hm [] None
                (fun s' cap => Some {| matched := take (length s - length s') s;
                                       group1 := cap |})) as H.
  rewrite app_nil_r in H. apply H. eauto.
Qed.

Lemma exec_suffix i r s1 s2 :
  is_Some (exec_here i r s2) -> is_Some (exec i r (s1 ++ s2)).
Proof.
  intros H. induction s1 as [|y s1 IH]; cbn [app].
  - destruct s2; cbn; destruct H as [res ->]; eauto.
  - cbn. destruct (exec_here i r (y :: s1 ++ s2)); eauto.
Qed.

(** Every member of a global match is a match of the pattern somewhere in
    the input. *)
Lemma matchAll_from_elem i r s : forall skip t,
  t ∈ matchAll_from i r s skip -> Matches i r t.
Proof.
  induction s as [|y s IH]; intros skip t; cbn.
  - destruct skip; [|by intros ?%elem_of_nil].
    destruct (exec_here i r []) as [res|] eqn:E; [|by intros ?%elem_of_nil].
    intros ->%list_elem_of_singleton. by eapply exec_here_sound.
  - destruct skip as [|n]; [|apply IH].
    destruct (exec_here i r (y :: s)) as [res|] eqn:E; [|apply IH].
    intros [->|Hin]%elem_of_cons; [by eapply exec_here_sound|].
    by eapply IH.
Qed.

(** The pattern of the link tags ends with the pattern the loop reads the
    href with, so every link tag has an href for the loop to read. *)
Lemma link_pattern :
  Pat.link = Cat (lit "<a") (Cat (Star (noneOf ">")) Pat.href).
Proof. reflexivity. Qed.

Lemma linkTags_href (html link : str) :
  link ∈ linkTags html -> is_Some (exec true Pat.href link).
Proof.
  unfold linkTags, matchAll. intros Hin.
  apply matchAll_from_elem in Hin. rewrite link_pattern in Hin.
  apply Matches_Cat_inv in Hin as (s1 & s' & -> & _ & Hin).
  apply Matches_Cat_inv in Hin as (s2 & s3 & -> & _ & Hhref).
  rewrite app_assoc. apply exec_suffix. by apply exec_here_complete.
Qed.

(** ** The history store *)

Section HistoryStore.
Import InspectorDO.

Lemma add_state (putOk : bool) (r : Report) (st : State) :
  fst (add putOk r st)
  = {| reports := take 50 (r :: reports st);
       storage := if putOk then Some (take 50 (r :: reports st)) else storage st |}.
Proof.
  unfold add, fetch, addRequest, addReport. cbn [pathname method json].
  rewrite !str_eqb_refl. cbn [andb].
  assert (Hcut : (if (50 <? length (r :: reports st))%nat
                  then take 50 (r :: reports st) else r :: reports st)
                 = take 50 (r :: reports st)).
  { destruct (50 <? length (r :: reports st))%nat eqn:E; [done|].
    apply Nat.ltb_ge in E. symmetry. by apply take_ge. }
  rewrite Hcut. by destruct putOk.
Qed.

Lemma addAll_snoc ops op st :
  addAll (ops ++ [op]) st = fst (add (snd op) (fst op) (addAll ops st)).
Proof. unfold addAll. by rewrite fold_left_app. Qed.

(** The log after any run of adds, up to the cap. *)
Lemma addAll_take ops st :
  take 50 (reports (addAll ops st))
  = take 50 (reverse (map fst ops) ++ reports st).
Proof.
  induction ops as [|op ops IH] using rev_ind; [done|].
  rewrite addAll_snoc, add_state. cbn [reports].
  rewrite map_app, reverse_app. cbn [map]. rewrite reverse_singleton.
  rewrite take_take. cbn [app take Nat.min].
  f_equal.
  assert (H49 : forall l : list Report, take 49 l = take 49 (take 50 l)).
  { intros l. rewrite take_take. done. }
  rewrite (H49 (reports _)), IH, <- H49. done.
Qed.

Lemma addAll_reports ops st :
  ops <> [] ->
  reports (addAll ops st) = take 50 (reverse (map fst ops) ++ reports st).
Proof.
  intros Hne. destruct ops as [|op ops _] using rev_ind; [done|].
  rewrite addAll_snoc, add_state. cbn [reports].
  rewrite map_app, reverse_app. cbn [map]. rewrite reverse_singleton.
  cbn [app take]. f_equal.
  pose proof (addAll_take ops st) as IH.
  assert (H49 : forall l : list Report, take 49 l = take 49 (take 50 l)).
  { intros l. rewrite take_take. done. }
  rewrite (H49 (reports _)), IH, <- H49. done.
Qed.

(** C5.  After more than 50 adds issued one after the other to one
    store (whatever log it was loaded with, and whether or not each write
    succeeded), [list()] answers with exactly 50 reports: the 50 added
    last, the latest first.  Each single add prepends its report and cuts
    the log to 50 entries. *)
Theorem history_bounded_most_recent_first
        (stored : option (list Report)) (ops : list (Report * bool)) :
  (50 < length ops)%nat ->
  let st := addAll ops (init stored) in
  list_ st
  = {| status := 200;
       body := ReportList (reverse (drop (length ops - 50) (map fst ops))) |}
  /\ length (reports st) = 50%nat
  /\ (forall putOk r st0,
        reports (fst (add putOk r st0)) = take 50 (r :: reports st0)).
Proof.
  intros Hlen st.
  assert (Hrep : reports st = reverse (drop (length ops - 50) (map fst ops))).
  { subst st. rewrite addAll_reports by (intros ->; simpl in Hlen; lia).
    rewrite take_app_le by (rewrite length_reverse, length_map; lia).
    rewrite take_reverse, length_map. done. }
  split; [|split].
  - unfold list_, fetch, listRequest, listReports. cbn. by rewrite Hrep.
  - rewrite Hrep, length_reverse, length_drop, length_map. lia.
  - intros putOk r st0. by rewrite add_state.
Qed.

(** C8.  When the write of an add fails, the caller gets the store's
    error response (status 500), and the in-memory log keeps the report
    just prepended: it is the head of the log that [list()] then shows,
    while the stored value is the old one. *)
Theorem add_write_failure_not_rolled_back (r : Report) (st : State) :
  let '(st', response) := add false r st in
  response = {| status := 500; body := Error |}
  /\ reports st' = r :: take 49 (reports st)
  /\ r ∈ reports st'
  /\ list_ st' = {| status := 200; body := ReportList (r :: take 49 (reports st)) |}
  /\ storage st' = storage st.
Proof.
  pose proof (add_state false r st) as Hst.
  destruct (add false r st) as [st' response] eqn:Hadd.
  cbn [fst] in Hst. subst st'.
  assert (Hresp : response = {| status := 500; body := Error |}).
  { revert Hadd. unfold add, fetch, addRequest, addReport.
    cbn [pathname method json]. rewrite !str_eqb_refl. cbn [andb].
    intros [=]. done. }
  cbn [reports storage take].
  repeat split; [done| apply list_elem_of_here].
Qed.

End HistoryStore.

(** ** The vitals normaliser *)

Section VitalsNormalizer.
Import Vitals.

(** C3.  The status of a quality score: at least 0.9 is good, from 0.5
    up to 0.9 needs improvement, a present score under 0.5 is poor, an
    absent score is unavailable; so 0.95 is good, 0.70 needs improvement
    and 0.30 is poor. *)
Theorem getStatus_thresholds (s : Q) :
  ((9 # 10 <= s)%Q -> getStatus (Some s) = good)
  /\ ((1 # 2 <= s)%Q -> (s < 9 # 10)%Q -> getStatus (Some s) = needs_improvement)
  /\ ((s < 1 # 2)%Q -> getStatus (Some s) = poor)
  /\ getStatus None = unavailable
  /\ getStatus (Some (95 # 100)) = good
  /\ getStatus (Some (70 # 100)) = needs_improvement
  /\ getStatus (Some (30 # 100)) = poor.
Proof.
  unfold getStatus. repeat split.
  - intros H. apply Qle_bool_iff in H. by rewrite H.
  - intros Hlo Hhi.
    destruct (Qle_bool (9 # 10) s) eqn:E.
    + apply Qle_bool_iff in E. exfalso. by apply (Qlt_not_le _ _ Hhi).
    + apply Qle_bool_iff in Hlo. by rewrite Hlo.
  - intros Hlt.
    destruct (Qle_bool (9 # 10) s) eqn:E1.
    { apply Qle_bool_iff in E1. exfalso. apply (Qlt_not_le _ _ Hlt).
      eapply Qle_trans; [|exact E1]. by unfold Qle. }
    destruct (Qle_bool (1 # 2) s) eqn:E2; [|done].
    apply Qle_bool_iff in E2. exfalso. by apply (Qlt_not_le _ _ Hlt).
Qed.

Lemma getStatus_thresholds_witness :
  getStatus (Some (95 # 100)) = good
  /\ getStatus (Some (70 # 100)) = needs_improvement
  /\ getStatus (Some (30 # 100)) = poor.
Proof.
  split; [|split].
  - apply (proj1 (getStatus_thresholds (95 # 100))). unfold Qle. simpl. lia.
  - apply (proj1 (proj2 (getStatus_thresholds (70 # 100)))).
    + unfold Qle. simpl. lia.
    + unfold Qlt. simpl. lia.
  - apply (proj1 (proj2 (proj2 (getStatus_thresholds (30 # 100))))).
    unfold Qlt. simpl. lia.
Defined.

(** Whenever the lab audit of a metric has a display value, that value
    is reported, whatever the field data says. *)
Lemma displayOr_lab (a : Audit.t) (d fallback : str) :
  Audit.displayValue a = Some d -> truthy d = true ->
  displayOr (Some a) fallback = d.
Proof. intros Hd Ht. unfold displayOr. by rewrite Hd, Ht. Qed.

(** The same at the level of the normaliser, for LCP. *)
Lemma lcp_value_is_lab_display (key : str) (data : PageSpeedData)
      (a : Audits) (au : Audit.t) (d : str) :
  key <> [] ->
  audits data = Some a -> largest_contentful_paint a = Some au ->
  Audit.displayValue au = Some d -> truthy d = true ->
  value (lcp (fetchCoreWebVitals (Some key) (Some data))) = d.
Proof.
  intros Hkey Ha Hau Hd Ht. destruct key as [|c key]; [done|].
  unfold fetchCoreWebVitals. cbn [lcp value]. rewrite Ha, Hau.
  by apply displayOr_lab.
Qed.

(** C2.  On a response that carries both a lab audit and a field
    measurement of LCP, the reported value is the lab display value and
    not the field percentile; the field percentile is reported only where
    the lab audit has no display value (FID here), and the status and the
    score always come from the lab audit. *)
Theorem lab_value_reported_when_field_present :
  let v := fetchCoreWebVitals (Some (js "key")) (Some Samples.labAndField) in
  value (lcp v) = js "1.2 s"
  /\ value (lcp v) <> formatMetric (2500 # 1) (js "ms")
  /\ formatMetric (2500 # 1) (js "ms") = js "2500.00ms"
  /\ status (lcp v) = good
  /\ value (fid v) = js "16.00ms"
  /\ status (fid v) = unavailable.
Proof. vm_compute. repeat split; done. Qed.

End VitalsNormalizer.

(** ** The fallback scorer *)

Section FallbackScorer.
Import Fallback.

Lemma gtQ_half (a b : Z) :
  gtQ (inject_Z a) (inject_Z b / 2) = (b <? 2 * a).
Proof.
  unfold gtQ, Qle_bool, Qdiv, Qmult, Qinv, inject_Z. cbn.
  destruct (b <? 2 * a) eqn:E.
  - apply Z.ltb_lt in E. apply negb_true_iff, Z.leb_gt. lia.
  - apply Z.ltb_ge in E. apply negb_false_iff, Z.leb_le. lia.
Qed.

Lemma scores_eq (m : PageMetrics) :
  scores (createFallbackAnalysis m)
  = {| Scores.seo := spec_seo m;
       Scores.performance := spec_performance m;
       Scores.accessibility := spec_accessibility m;
       Scores.bestPractices := spec_bestPractices m |}.
Proof.
  unfold createFallbackAnalysis. cbn [scores].
  rewrite gtQ_half.
  unfold spec_seo, spec_performance, spec_accessibility, spec_bestPractices,
    spec_altBonus, bonus.
  f_equal.
  - destruct (truthy (title m)), (truthy (description m)), (hasH1 m),
      (hasCanonical m), (hasOpenGraph m), (uniqueH1 m); reflexivity.
  - destruct (htmlLength m <? 50000), (scriptCount m <? 10),
      (inlineStyleCount m =? 0); reflexivity.
  - destruct ((0 <? imgCount m) && (imgWithAltCount m =? imgCount m)),
      (imgCount m <? 2 * imgWithAltCount m), (hasLang m), (hasViewport m);
      reflexivity.
  - destruct (isHttps m), (hasCharset m), (hasViewport m); reflexivity.
Qed.

(** C4.  The four scores of the fallback scorer are those of the point
    table, and on the metrics extracted from the scenario markup they are
    SEO 70, performance 100, accessibility 60 and best practices 100. *)
Theorem fallback_scores_follow_point_table :
  (forall m : PageMetrics,
      scores (createFallbackAnalysis m)
      = {| Scores.seo := spec_seo m;
           Scores.performance := spec_performance m;
           Scores.accessibility := spec_accessibility m;
           Scores.bestPractices := spec_bestPractices m |})
  /\ (exists m : PageMetrics,
        extractMetrics URL.new_URL Samples.scenario Samples.sourceUrl = Some m
        /\ (title m, description m) = ([], [])
        /\ (hasH1 m, uniqueH1 m, hasLang m) = (true, true, false)
        /\ (imgCount m, imgWithAltCount m, scriptCount m, inlineStyleCount m)
           = (3, 0, 2, 0)
        /\ (isHttps m, hasViewport m, hasCharset m) = (true, true, true)
        /\ scores (createFallbackAnalysis m)
           = {| Scores.seo := 70; Scores.performance := 100;
                Scores.accessibility := 60; Scores.bestPractices := 100 |}).
Proof.
  split; [exact scores_eq|].
  eexists. split; [vm_compute; reflexivity|].
  vm_compute. repeat split; reflexivity.
Qed.

(** C9.  Each of the four scores of the fallback scorer is an integer
    between 0 and 100. *)
Theorem fallback_scores_within_bounds (m : PageMetrics) :
  let s := scores (createFallbackAnalysis m) in
  0 <= Scores.seo s <= 100
  /\ 0 <= Scores.performance s <= 100
  /\ 0 <= Scores.accessibility s <= 100
  /\ 0 <= Scores.bestPractices s <= 100.
Proof.
  cbv zeta. rewrite scores_eq.
  cbn [Scores.seo Scores.performance Scores.accessibility Scores.bestPractices].
  unfold spec_seo, spec_performance, spec_accessibility, spec_bestPractices,
    spec_altBonus, bonus.
  repeat split;
    repeat match goal with
           | |- context [if ?c then _ else _] => destruct c
           end; lia.
Qed.

End FallbackScorer.

(** ** The metrics extractor *)

Section MetricsExtractor.
Variable new_URL : str -> option URL.t.

(** What [extractMetrics] returns, field by field. *)
Lemma extractMetrics_inv (html url : str) (m : PageMetrics) :
  extractMetrics new_URL html url = Some m ->
  exists urlObj,
    new_URL url = Some urlObj
    /\ h1Count m = len (h1Tags html)
    /\ hasH1 m = (0 <? len (h1Tags html))
    /\ uniqueH1 m
       = (size (uniqueH1Values html) =? 1)%nat && (0 <? len (h1Tags html))
    /\ linkCount m = len (linkTags html)
    /\ (internalLinkCount m, externalLinkCount m)
       = countLinks new_URL urlObj (linkTags html).
Proof.
  unfold extractMetrics. intros H.
  destruct (new_URL url) as [urlObj|]; [|done].
  exists urlObj.
  destruct (countLinks new_URL urlObj (linkTags html)) as [i e].
  injection H as <-. cbn. done.
Qed.

(** A set built from a list has one element exactly when the list is
    not empty and all its members are equal. *)
Lemma size_list_to_set_1 (l : list str) :
  size (list_to_set l : gset str) = 1%nat
  <-> l <> [] /\ exists v, Forall (fun x => x = v) l.
Proof.
  split.
  - intros Hsize. split.
    + intros ->. by rewrite list_to_set_nil, size_empty in Hsize.
    + apply size_1_elem_of in Hsize as [v Hv]. exists v.
      apply Forall_forall. intros x Hx.
      assert (x ∈ (list_to_set l : gset str)) as Hin by by apply elem_of_list_to_set.
      rewrite Hv in Hin. by apply elem_of_singleton in Hin.
  - intros [Hne [v Hall]].
    assert ((list_to_set l : gset str) = {[ v ]}) as ->; [|apply size_singleton].
    apply set_eq. intros x. rewrite elem_of_list_to_set, elem_of_singleton.
    rewrite Forall_forall in Hall. split; [by apply Hall|].
    intros ->. destruct l as [|y l]; [done|].
    rewrite (Hall y) by apply list_elem_of_here. apply list_elem_of_here.
Qed.

(** C1, as the code has it.  [uniqueH1] is true exactly when at least
    one H1 tag is matched and all matched H1 tags carry the same trimmed
    text: the number of H1 tags may exceed one, and the text may be
    empty. *)
Theorem uniqueH1_iff_one_distinct_text (html url : str) (m : PageMetrics) :
  extractMetrics new_URL html url = Some m ->
  (uniqueH1 m = true
   <-> 0 < h1Count m /\ size (uniqueH1Values html) = 1%nat)
  /\ (uniqueH1 m = true
      <-> h1Tags html <> []
          /\ exists text, Forall (fun tag => h1Text tag = text) (h1Tags html)).
Proof.
  intros H. apply extractMetrics_inv in H as (u & _ & Hc & _ & Hu & _).
  assert (Hfirst : uniqueH1 m = true
                   <-> 0 < h1Count m /\ size (uniqueH1Values html) = 1%nat).
  { rewrite Hu, Hc, andb_true_iff, Nat.eqb_eq, Z.ltb_lt. tauto. }
  split; [exact Hfirst|].
  rewrite Hfirst, Hc. unfold uniqueH1Values.
  rewrite size_list_to_set_1. unfold len.
  split.
  - intros (_ & Hne & text & Hall). split.
    + intros E. apply Hne. by rewrite E.
    + exists text. by apply Forall_map in Hall.
  - intros (Hne & text & Hall). split; [|split].
    + destruct (h1Tags html); [done|]. cbn [length]. lia.
    + destruct (h1Tags html); done.
    + exists text. by apply Forall_map.
Qed.


(** A step of the loop adds to the counters what it adds to zero. *)
Lemma countLink_delta (urlObj : URL.t) (counts : Z * Z) (link : str) :
  countLink new_URL urlObj counts link
  = (fst counts + fst (countLink new_URL urlObj (0, 0) link),
     snd counts + snd (countLink new_URL urlObj (0, 0) link)).
Proof.
  unfold countLink. destruct counts as [i e].
  destruct (exec true Pat.href link) as [res|];
    [|cbn [fst snd]; f_equal; lia].
  destruct (startsWith (js "http") (capture res)).
  - destruct (new_URL (capture res)) as [linkUrl|];
      [|cbn [fst snd]; f_equal; lia].
    destruct (str_eqb (URL.hostname linkUrl) (URL.hostname urlObj));
      cbn [fst snd]; f_equal; lia.
  - destruct (startsWith (js "/") (capture res)
              || negb (startsWith (js "#") (capture res)));
      cbn [fst snd]; f_equal; lia.
Qed.

Lemma fold_countLink (urlObj : URL.t) (links : list str) (counts : Z * Z) :
  fold_left (countLink new_URL urlObj) links counts
  = (fst counts + fst (countLinks new_URL urlObj links),
     snd counts + snd (countLinks new_URL urlObj links)).
Proof.
  unfold countLinks. revert counts.
  induction links as [|link links IH]; intros counts.
  - destruct counts as [i e]. cbn. f_equal; lia.
  - cbn [fold_left]. rewrite (IH (countLink _ _ (0, 0) link)), IH.
    rewrite (countLink_delta urlObj counts link). cbn [fst snd].
    f_equal; lia.
Qed.

(** What one link tag contributes to the counters of a page. *)
Lemma countLinks_insert (urlObj : URL.t) (before after : list str) (link : str) :
  countLinks new_URL urlObj (before ++ link :: after)
  = countLink new_URL urlObj (countLinks new_URL urlObj (before ++ after)) link.
Proof.
  rewrite countLink_delta.
  unfold countLinks. rewrite !fold_left_app. cbn [fold_left].
  rewrite (fold_countLink urlObj after (countLink _ _ _ link)).
  rewrite (fold_countLink urlObj after (fold_left _ before _)).
  rewrite (countLink_delta urlObj (fold_left _ before _) link).
  cbn [fst snd]. f_equal; lia.
Qed.

(** C7, as the code has it.  Every link tag of the markup has an href
    that the loop over the link tags reads, and the step of the loop on it
    is: an href that begins with [http] and parses as a URL counts as
    internal when its hostname is the source's and as external otherwise;
    one that begins with [http] and does not parse changes neither counter;
    one that begins with a slash counts as internal; one that begins with
    [#] changes neither counter.  Every link tag is in the raw total,
    whatever its class, and the two counters of the page are the loop's. *)
Theorem link_classification
        (html : str) (urlObj : URL.t) (counts : Z * Z) (link : str) :
  link ∈ linkTags html ->
  exists res,
    exec true Pat.href link = Some res
    /\ let href := capture res in
       let step := countLink new_URL urlObj counts link in
       (forall linkUrl,
           startsWith (js "http") href = true -> new_URL href = Some linkUrl ->
           URL.hostname linkUrl = URL.hostname urlObj ->
           step = (fst counts + 1, snd counts))
       /\ (forall linkUrl,
              startsWith (js "http") href = true -> new_URL href = Some linkUrl ->
              URL.hostname linkUrl <> URL.hostname urlObj ->
              step = (fst counts, snd counts + 1))
       /\ (startsWith (js "http") href = true -> new_URL href = None ->
           step = counts)
       /\ (startsWith (js "/") href = true -> step = (fst counts + 1, snd counts))
       /\ (startsWith (js "#") href = true -> step = counts)
       /\ (forall url m,
              extractMetrics new_URL html url = Some m ->
              linkCount m = len (linkTags html)
              /\ 0 < linkCount m
              /\ exists source,
                   new_URL url = Some source
                   /\ (internalLinkCount m, externalLinkCount m)
                      = fold_left (countLink new_URL source) (linkTags html) (0, 0)).
Proof.
  intros Hin. destruct (linkTags_href _ _ Hin) as [res Hres].
  exists res. split; [exact Hres|].
  intros href step. subst step. unfold countLink.
  destruct counts as [i e]. rewrite Hres. fold href. cbn [fst snd].
  repeat apply conj.
  - intros linkUrl -> -> Hhost.
    by rewrite (proj2 (str_eqb_eq _ _) Hhost).
  - intros linkUrl -> -> Hhost.
    destruct (str_eqb (URL.hostname linkUrl) (URL.hostname urlObj)) eqn:E; [|done].
    by apply str_eqb_eq in E.
  - by intros -> ->.
  - intros Hslash.
    destruct href as [|c href']; [done|].
    cbn in Hslash. apply andb_true_iff in Hslash as [Hc _].
    apply N.eqb_eq in Hc. subst c. cbn. done.
  - intros Hhash.
    destruct href as [|c href']; [done|].
    cbn in Hhash. apply andb_true_iff in Hhash as [Hc _].
    apply N.eqb_eq in Hc. subst c. cbn. done.
  - intros url m H.
    apply extractMetrics_inv in H as (u & Hu & _ & _ & _ & Hl & Hc).
    split; [exact Hl|]. split.
    + rewrite Hl. unfold len. destruct (linkTags html); [|cbn; lia].
      by apply elem_of_nil in Hin.
    + exists u. by split.
Qed.

(** C10.  The loop reads an href from every link tag of the markup: the
    first [href=] followed by a quoted value in the tag, which may belong
    to another attribute such as [data-href].  When the href it reads
    begins neither with [http] nor with [#], the tag counts as internal,
    whatever the href is, a [mailto:], [tel:] or [javascript:] href as
    well: the step of the loop adds one to the internal counter, and so
    the link tag raises the internal count of the page by one and leaves
    the external count alone. *)
Theorem other_scheme_href_counts_as_internal
        (html : str) (urlObj : URL.t) (counts : Z * Z) (link : str) :
  link ∈ linkTags html ->
  exists res,
    exec true Pat.href link = Some res
    /\ (startsWith (js "http") (capture res) = false ->
        startsWith (js "#") (capture res) = false ->
        countLink new_URL urlObj counts link = (fst counts + 1, snd counts)
        /\ (forall url m before after,
               extractMetrics new_URL html url = Some m ->
               new_URL url = Some urlObj ->
               linkTags html = before ++ link :: after ->
               internalLinkCount m
               = fst (countLinks new_URL urlObj (before ++ after)) + 1
               /\ externalLinkCount m
                  = snd (countLinks new_URL urlObj (before ++ after)))).
Proof.
  intros Hin. destruct (linkTags_href _ _ Hin) as [res Hres].
  exists res. split; [exact Hres|].
  intros Hhttp Hhash.
  assert (Hstep : forall c, countLink new_URL urlObj c link = (fst c + 1, snd c)).
  { intros [i e]. unfold countLink. rewrite Hres, Hhttp, Hhash.
    by rewrite orb_true_r. }
  split; [apply Hstep|].
  intros url m before after H Hurl Htags.
  apply extractMetrics_inv in H as (u & Hu & _ & _ & _ & _ & Hc).
  rewrite Hurl in Hu. injection Hu as <-.
  rewrite Htags, countLinks_insert, Hstep in Hc.
  by injection Hc as -> ->.
Qed.

End MetricsExtractor.

(** ** Closed instances *)

Lemma history_bounded_witness :
  (50 < length Samples.fiftyOneAdds)%nat
  /\ length (InspectorDO.reports
               (InspectorDO.addAll Samples.fiftyOneAdds (InspectorDO.init None)))
     = 50%nat.
Proof.
  split; [vm_compute; lia|].
  apply (history_bounded_most_recent_first None Samples.fiftyOneAdds).
  vm_compute. lia.
Defined.

Lemma scenario_extracted :
  extractMetrics URL.new_URL Samples.scenario Samples.sourceUrl
  = Some Samples.scenarioMetrics.
Proof. vm_compute. reflexivity. Qed.

Lemma uniqueH1_witness :
  (uniqueH1 Samples.scenarioMetrics = true
   <-> 0 < h1Count Samples.scenarioMetrics
       /\ size (uniqueH1Values Samples.scenario) = 1%nat)
  /\ (uniqueH1 Samples.scenarioMetrics = true
      <-> h1Tags Samples.scenario <> []
          /\ exists text,
               Forall (fun tag => h1Text tag = text) (h1Tags Samples.scenario)).
Proof.
  apply (uniqueH1_iff_one_distinct_text URL.new_URL Samples.scenario
           Samples.sourceUrl Samples.scenarioMetrics).
  vm_compute. reflexivity.
Defined.

(** Against C1 as the specification words it: two H1 tags that carry the
    same text, and a single H1 tag without text, both give
    [uniqueH1 = true]; two H1 tags with different texts give [false]. *)
Lemma uniqueH1_counterexample :
  let extract html := extractMetrics URL.new_URL html Samples.sourceUrl in
  h1Count <$> extract Samples.twoEqualH1 = Some 2
  /\ uniqueH1 <$> extract Samples.twoEqualH1 = Some true
  /\ h1Count <$> extract Samples.emptyH1 = Some 1
  /\ map h1Text (h1Tags Samples.emptyH1) = [[]]
  /\ uniqueH1 <$> extract Samples.emptyH1 = Some true
  /\ uniqueH1 <$> extract Samples.twoDifferentH1 = Some false.
Proof. vm_compute. repeat split; reflexivity. Qed.



Lemma link_classification_witness :
  Samples.otherLinkTag ∈ linkTags Samples.mixedLinks
  /\ countLink URL.new_URL Samples.exampleCom (0, 0) Samples.otherLinkTag = (0, 1).
Proof.
  assert (Hin : Samples.otherLinkTag ∈ linkTags Samples.mixedLinks)
    by (apply list_elem_of_In; vm_compute; tauto).
  split; [exact Hin|].
  destruct (link_classification URL.new_URL Samples.mixedLinks
              Samples.exampleCom (0, 0) Samples.otherLinkTag Hin)
    as (res & Hres & _ & Hext & _).
  vm_compute in Hres. injection Hres as <-.
  apply (Hext Samples.otherExample).
  - vm_compute. reflexivity.
  - vm_compute. reflexivity.
  - vm_compute. discriminate.
Defined.

(** Against C7 as the specification words it: [HTTPS://other.example/]
    is an absolute URL whose hostname differs from the source's, and so is
    [ftp://other.example/file]; each is counted as an internal link and not
    as an external one. *)
Lemma link_classification_counterexample :
  let extract html := extractMetrics URL.new_URL html Samples.sourceUrl in
  URL.parse Samples.sourceUrl = URL.Parsed Samples.exampleCom
  /\ URL.parse (js "HTTPS://other.example/") = URL.Parsed Samples.otherExample
  /\ linkTags Samples.upperSchemeLink = [js "<a href='HTTPS://other.example/'"]
  /\ internalLinkCount <$> extract Samples.upperSchemeLink = Some 1
  /\ externalLinkCount <$> extract Samples.upperSchemeLink = Some 0
  /\ URL.hostname <$> URL.new_URL (js "ftp://other.example/file")
     = Some (js "other.example")
  /\ internalLinkCount <$> extract Samples.ftpLink = Some 1
  /\ externalLinkCount <$> extract Samples.ftpLink = Some 0.
Proof. vm_compute. repeat split; reflexivity. Qed.

(** The amended classification on a page with one link of each kind. *)
Example mixed_links_counted :
  let m := extractMetrics URL.new_URL Samples.mixedLinks Samples.sourceUrl in
  (linkCount <$> m, internalLinkCount <$> m, externalLinkCount <$> m)
  = (Some 5, Some 2, Some 1).
Proof. vm_compute. reflexivity. Qed.

Lemma other_scheme_href_witness :
  Samples.mailtoLinkTag ∈ linkTags Samples.schemeLinks
  /\ countLink URL.new_URL Samples.exampleCom (0, 0) Samples.mailtoLinkTag = (1, 0).
Proof.
  assert (Hin : Samples.mailtoLinkTag ∈ linkTags Samples.schemeLinks)
    by (apply list_elem_of_In; vm_compute; tauto).
  split; [exact Hin|].
  destruct (other_scheme_href_counts_as_internal URL.new_URL Samples.schemeLinks
              Samples.exampleCom (0, 0) Samples.mailtoLinkTag Hin)
    as (res & Hres & Hstep).
  vm_compute in Hres. injection Hres as <-.
  apply Hstep.
  - vm_compute. reflexivity.
  - vm_compute. reflexivity.
Defined.

(** Three links, none of them relative or root-relative, all counted as
    internal. *)
Example scheme_links_counted_internal :
  let m := extractMetrics URL.new_URL Samples.schemeLinks Samples.sourceUrl in
  (linkCount <$> m, internalLinkCount <$> m, externalLinkCount <$> m)
  = (Some 3, Some 3, Some 0).
Proof. vm_compute. reflexivity. Qed.

(** Against C10 as the specification words it: the href of the anchor is
    [mailto:a@b.c], which begins neither with [http] nor with [#]; the
    loop reads [#x] from the [data-href] attribute that stands before it,
    and the anchor is counted as a link but in neither bucket. *)
Lemma other_scheme_href_counterexample :
  let m := extractMetrics URL.new_URL Samples.dataHrefLink Samples.sourceUrl in
  linkTags Samples.dataHrefLink = [js "<a data-href='#x' href='mailto:a@b.c'"]
  /\ group1 <$> exec true Pat.link Samples.dataHrefLink
     = Some (Some (js "mailto:a@b.c"))
  /\ startsWith (js "http") (js "mailto:a@b.c") = false
  /\ startsWith (js "#") (js "mailto:a@b.c") = false
  /\ capture <$> exec true Pat.href (js "<a data-href='#x' href='mailto:a@b.c'")
     = Some (js "#x")
  /\ (linkCount <$> m, internalLinkCount <$> m, externalLinkCount <$> m)
     = (Some 1, Some 0, Some 0).
Proof. vm_compute. repeat split; reflexivity. Qed.

(* ===================================================================== *)
(** * Further properties of the code *)
(* ===================================================================== *)

(** ** The history store *)

Section HistoryStoreMore.
Import InspectorDO.

(** X1.  Below the cap nothing is lost: when the loaded log and the adds
    together are at most 50 reports, the log after the adds is all the
    added reports, the latest first, followed by the loaded log. *)
Theorem history_keeps_everything_below_cap
        (stored : option (list Report)) (ops : list (Report * bool)) :
  (length ops + length (default [] stored) <= 50)%nat ->
  reports (addAll ops (init stored)) = reverse (map fst ops) ++ default [] stored
  /\ list_ (addAll ops (init stored))
     = {| status := 200;
          body := ReportList (reverse (map fst ops) ++ default [] stored) |}.
Proof.
  intros Hlen.
  assert (H : reports (addAll ops (init stored))
              = reverse (map fst ops) ++ default [] stored).
  { destruct (decide (ops = [])) as [->|Hne]; [done|].
    rewrite addAll_reports by done. cbn [init reports].
    apply take_ge. rewrite length_app, length_reverse, length_map. lia. }
  split; [exact H|].
  unfold list_, fetch, listRequest, listReports. cbn. by rewrite H.
Qed.

Lemma fetch_state (putOk : bool) (request : Request) (st : State) :
  fst (fetch putOk request st) = st
  \/ exists r, request = addRequest r /\ fst (fetch putOk request st) = fst (add putOk r st).
Proof.
  unfold fetch.
  destruct (str_eqb (pathname request) (js "/add")) eqn:Hp; cbn [andb].
  - destruct (str_eqb (method request) (js "POST")) eqn:Hm.
    + destruct request as [p mth [r|]]; cbn in *.
      * right. exists r. apply str_eqb_eq in Hp, Hm. subst. done.
      * left. unfold addReport. cbn. done.
    + destruct (str_eqb (pathname request) (js "/list")
                && str_eqb (method request) (js "GET")); by left.
  - destruct (str_eqb (pathname request) (js "/list")
              && str_eqb (method request) (js "GET")); by left.
Qed.

(** X2.  The cap is an invariant of the object: a log of at most 50
    reports stays at most 50 under any sequence of requests (adds, lists,
    unknown routes, bodies that are no JSON), whether or not the writes
    succeed. *)
Theorem history_cap_is_invariant
        (requests : list (Request * bool)) (st : State) :
  (length (reports st) <= 50)%nat ->
  (length (reports (serveAll requests st)) <= 50)%nat.
Proof.
  unfold serveAll. revert st.
  induction requests as [|[request putOk] requests IH]; intros st Hlen; [done|].
  cbn [fold_left fst snd]. apply IH.
  destruct (fetch_state putOk request st) as [->|(r & _ & ->)]; [done|].
  rewrite add_state. cbn [reports]. rewrite length_take. lia.
Qed.

(** X3.  Only a POST to [/add] with a body that parses changes the
    object.  Any other request leaves the log and the stored value as they
    were: an unknown route or method is answered 404, a body that is no
    JSON is answered 500, and a list is answered with the log. *)
Theorem only_add_changes_the_store (putOk : bool) (request : Request) (st : State) :
  (fst (fetch putOk request st) <> st ->
   pathname request = js "/add" /\ method request = js "POST"
   /\ is_Some (json request))
  /\ (json request = None ->
      pathname request = js "/add" -> method request = js "POST" ->
      fetch putOk request st = (st, {| status := 500; body := Error |}))
  /\ (pathname request = js "/list" -> method request = js "GET" ->
      fetch putOk request st
      = (st, {| status := 200; body := ReportList (reports st) |}))
  /\ ((pathname request <> js "/add" \/ method request <> js "POST") ->
      (pathname request <> js "/list" \/ method request <> js "GET") ->
      fetch putOk request st = (st, {| status := 404; body := NotFound |})).
Proof.
  repeat apply conj.
  - intros Hch.
    destruct (fetch_state putOk request st) as [E|(r & -> & _)]; [done|].
    cbn. eauto.
  - intros Hj Hp Hm. unfold fetch, addReport.
    rewrite Hp, Hm, Hj, !str_eqb_refl. done.
  - intros Hp Hm. unfold fetch. rewrite Hp, Hm. done.
  - intros Hadd Hlist. unfold fetch.
    assert (str_eqb (pathname request) (js "/add")
            && str_eqb (method request) (js "POST") = false) as ->.
    { apply andb_false_iff.
      destruct Hadd as [H|H]; [left|right];
        (destruct (str_eqb _ _) eqn:E; [apply str_eqb_eq in E|]; done). }
    assert (str_eqb (pathname request) (js "/list")
            && str_eqb (method request) (js "GET") = false) as ->; [|done].
    apply andb_false_iff.
    destruct Hlist as [H|H]; [left|right];
      (destruct (str_eqb _ _) eqn:E; [apply str_eqb_eq in E|]; done).
Qed.

(** X4.  A successful add is durable: the stored value is the log, so an
    object created again from the storage answers a list as before.  After
    a failed write the stored value lags behind, and the next successful
    add stores the whole log, the report of the failed write included. *)
Theorem successful_add_is_durable (r r' : Report) (st : State) :
  let st1 := fst (add true r st) in
  let st2 := fst (add true r' (fst (add false r st))) in
  storage st1 = Some (reports st1)
  /\ init (storage st1) = st1
  /\ list_ (init (storage st1)) = list_ st1
  /\ storage st2 = Some (reports st2)
  /\ r ∈ reports st2
  /\ init (storage st2) = st2.
Proof.
  cbv zeta. rewrite !add_state. cbn [reports storage init default].
  repeat apply conj; try done.
  cbn [take]. apply elem_of_cons. right. apply elem_of_cons. by left.
Qed.

End HistoryStoreMore.

(** ** The fallback scorer *)

Section FallbackScorerMore.
Import Fallback.

(** X5.  The cap of 100 never cuts a score: each score is its base plus
    its bonuses, the SEO and accessibility scores are at least 50, the
    performance score at least 70 and the best-practices score at least 60,
    every score is a multiple of 5, and the SEO score is 100 exactly when
    all six SEO conditions hold. *)
Theorem fallback_scores_never_clamped (m : PageMetrics) :
  let s := scores (createFallbackAnalysis m) in
  Scores.seo s
  = 50 + bonus (truthy (title m)) 10 + bonus (truthy (description m)) 10
    + bonus (hasH1 m) 10 + bonus (hasCanonical m) 5
    + bonus (hasOpenGraph m) 5 + bonus (uniqueH1 m) 10
  /\ Scores.performance s
     = 70 + bonus (htmlLength m <? 50000) 10 + bonus (scriptCount m <? 10) 10
       + bonus (inlineStyleCount m =? 0) 10
  /\ Scores.accessibility s
     = 50 + spec_altBonus m + bonus (hasLang m) 10 + bonus (hasViewport m) 10
  /\ Scores.bestPractices s
     = 60 + bonus (isHttps m) 15 + bonus (hasCharset m) 10
       + bonus (hasViewport m) 15
  /\ 50 <= Scores.seo s /\ 70 <= Scores.performance s
  /\ 50 <= Scores.accessibility s /\ 60 <= Scores.bestPractices s
  /\ Scores.seo s mod 5 = 0 /\ Scores.performance s mod 5 = 0
  /\ Scores.accessibility s mod 5 = 0 /\ Scores.bestPractices s mod 5 = 0
  /\ (Scores.seo s = 100
      <-> truthy (title m) = true /\ truthy (description m) = true
          /\ hasH1 m = true /\ hasCanonical m = true
          /\ hasOpenGraph m = true /\ uniqueH1 m = true).
Proof.
  cbv zeta. rewrite scores_eq.
  cbn [Scores.seo Scores.performance Scores.accessibility Scores.bestPractices].
  unfold spec_seo, spec_performance, spec_accessibility, spec_bestPractices,
    spec_altBonus, bonus.
  repeat apply conj.
  1-12: repeat match goal with
               | |- context [if ?c then _ else _] => destruct c
               end; first [reflexivity | cbn; lia].
  - destruct (truthy (title m)), (truthy (description m)), (hasH1 m),
      (hasCanonical m), (hasOpenGraph m), (uniqueH1 m); cbn;
      intros ?; first [lia | tauto].
  - intros (-> & -> & -> & -> & -> & ->). reflexivity.
Qed.

Lemma findings_eq (m : PageMetrics) :
  map (fun f => (Finding.type f, Finding.category f))
      (findings (createFallbackAnalysis m))
  = (if truthy (title m) then [] else [(critical, seo)])
      ++ (if truthy (description m) then [] else [(warning, seo)])
      ++ (if hasH1 m then [] else [(critical, seo)])
      ++ (if imgWithAltCount m <? imgCount m then [(warning, accessibility)] else [])
      ++ (if isHttps m then [(positive, best_practices)] else [(critical, best_practices)])
      ++ (if truthy (title m) then [(positive, seo)] else []).
Proof.
  unfold createFallbackAnalysis. cbn [findings]. unfold pushIf.
  destruct (truthy (title m)), (truthy (description m)), (hasH1 m),
    (imgWithAltCount m <? imgCount m), (isHttps m); reflexivity.
Qed.

(** X6.  The critical findings are the missing title, the missing H1 and
    the missing HTTPS, the warnings are the missing description and the
    images without alt text; there are never fewer than two findings nor
    more than five, and there are no critical findings exactly when the
    page has a title, an H1 and HTTPS.  The summary reports these two
    counts. *)
Theorem fallback_findings_counts (m : PageMetrics) :
  let a := createFallbackAnalysis m in
  let criticals := length (List.filter isCritical (findings a)) in
  let warnings := length (List.filter isWarning (findings a)) in
  criticals
  = (Nat.b2n (negb (truthy (title m))) + Nat.b2n (negb (hasH1 m))
     + Nat.b2n (negb (isHttps m)))%nat
  /\ warnings
     = (Nat.b2n (negb (truthy (description m)))
        + Nat.b2n (imgWithAltCount m <? imgCount m)%Z)%nat
  /\ (2 <= length (findings a) <= 5)%nat
  /\ (criticals = 0%nat
      <-> truthy (title m) = true /\ hasH1 m = true /\ isHttps m = true)
  /\ summary a
     = js "This website has " ++ ofN (N.of_nat criticals)
         ++ js " critical issues and " ++ ofN (N.of_nat warnings)
         ++ js " warnings. Focus on improving SEO fundamentals and accessibility.".
Proof.
  cbv zeta.
  assert (Hc : forall l : list Finding.t,
             length (List.filter isCritical l)
             = length (List.filter (fun p => match fst p with critical => true | _ => false end)
                         (map (fun f => (Finding.type f, Finding.category f)) l))).
  { induction l as [|f l IH]; [done|]. cbn. unfold isCritical at 1.
    destruct (Finding.type f); cbn; by rewrite IH. }
  assert (Hw : forall l : list Finding.t,
             length (List.filter isWarning l)
             = length (List.filter (fun p => match fst p with warning => true | _ => false end)
                         (map (fun f => (Finding.type f, Finding.category f)) l))).
  { induction l as [|f l IH]; [done|]. cbn. unfold isWarning at 1.
    destruct (Finding.type f); cbn; by rewrite IH. }
  assert (Hl : length (findings (createFallbackAnalysis m))
               = length (map (fun f => (Finding.type f, Finding.category f))
                           (findings (createFallbackAnalysis m))))
    by by rewrite length_map.
  repeat apply conj; [..|reflexivity];
    rewrite ?Hc, ?Hw, ?Hl, findings_eq;
    destruct (truthy (title m)), (truthy (description m)), (hasH1 m),
      (imgWithAltCount m <? imgCount m), (isHttps m); cbn;
      first [lia | discriminate | done
            | intros (? & ? & ?); discriminate].
Qed.

Lemma seo_100_inv (m : PageMetrics) :
  Scores.seo (scores (createFallbackAnalysis m)) = 100 ->
  truthy (title m) = true /\ truthy (description m) = true
  /\ hasH1 m = true /\ hasCanonical m = true
  /\ hasOpenGraph m = true /\ uniqueH1 m = true.
Proof.
  rewrite scores_eq. cbn [Scores.seo]. unfold spec_seo, bonus.
  destruct (truthy (title m)), (truthy (description m)), (hasH1 m),
    (hasCanonical m), (hasOpenGraph m), (uniqueH1 m); cbn;
    intros ?; first [lia | tauto].
Qed.

(** X7.  Scores and findings agree: when the SEO score is 100 no SEO
    finding is critical or a warning and no medium-priority recommendation
    (canonical link, Open Graph) is made; when the best-practices score is
    100 no finding is critical in that category; and the advice to reduce
    the script count is never given together with the bonus for few
    scripts. *)
Theorem fallback_scores_agree_with_findings (m : PageMetrics) :
  let a := createFallbackAnalysis m in
  (Scores.seo (scores a) = 100 ->
   Forall (fun f => Finding.category f = seo -> Finding.type f = positive)
          (findings a)
   /\ Forall (fun r => Recommendation.priority r <> medium) (recommendations a))
  /\ (Scores.bestPractices (scores a) = 100 ->
      Forall (fun f => Finding.category f = best_practices ->
                       Finding.type f = positive) (findings a))
  /\ (Exists (fun r => Recommendation.priority r = high) (recommendations a) ->
      Scores.performance (scores a) <= 90).
Proof.
  cbv zeta. repeat apply conj.
  - intros H100. apply seo_100_inv in H100 as (Ht & Hd & Hh & Hc & Ho & _).
    unfold createFallbackAnalysis. cbn [findings recommendations]. unfold pushIf.
    rewrite Ht, Hd, Hh, Hc, Ho. cbn [negb].
    split.
    + destruct (imgWithAltCount m <? imgCount m), (isHttps m); cbn;
        repeat constructor; cbn; congruence.
    + destruct (15 <? scriptCount m), (hasStructuredData m); cbn;
        repeat constructor; cbn; congruence.
  - intros H100.
    assert (isHttps m = true) as Hs.
    { revert H100. rewrite scores_eq. cbn [Scores.bestPractices].
      unfold spec_bestPractices, bonus.
      destruct (isHttps m), (hasCharset m), (hasViewport m); cbn; lia. }
    unfold createFallbackAnalysis. cbn [findings]. unfold pushIf. rewrite Hs.
    destruct (truthy (title m)), (truthy (description m)), (hasH1 m),
      (imgWithAltCount m <? imgCount m); cbn;
      repeat constructor; cbn; congruence.
  - intros Hhigh.
    assert ((15 <? scriptCount m) = true) as Hs.
    { revert Hhigh. unfold createFallbackAnalysis. cbn [recommendations].
      unfold pushIf.
      destruct (hasCanonical m), (hasOpenGraph m), (15 <? scriptCount m),
        (hasStructuredData m); cbn; try done;
        intros H; repeat (apply Exists_cons in H as [H|H]; [cbn in H; congruence|]);
        by apply Exists_nil in H. }
    apply Z.ltb_lt in Hs.
    rewrite scores_eq. cbn [Scores.performance]. unfold spec_performance, bonus.
    destruct (scriptCount m <? 10) eqn:E; [apply Z.ltb_lt in E; lia|].
    destruct (htmlLength m <? 50000), (inlineStyleCount m =? 0); cbn; lia.
Qed.

End FallbackScorerMore.

(** ** The vitals normaliser *)

Section VitalsNormalizerMore.
Import Vitals.

Lemma toFixed_nonempty (d : nat) (x : Q) : toFixed (S d) x <> [].
Proof.
  unfold toFixed. intros H.
  apply app_eq_nil in H as [_ H]. apply app_eq_nil in H as [_ H].
  discriminate.
Qed.

Lemma formatMetric_ms (x : Q) : formatMetric x (js "ms") = toFixed 2 x ++ js "ms".
Proof. reflexivity. Qed.

Lemma formatMetric_plain (x : Q) : formatMetric x [] = toFixed 2 x ++ [].
Proof. reflexivity. Qed.

Lemma displayOr_nonempty (audit : option Audit.t) (fallback : str) :
  fallback <> [] -> displayOr audit fallback <> [].
Proof.
  intros Hf. unfold displayOr.
  destruct audit as [a|]; [|done].
  destruct (Audit.displayValue a) as [d|]; [|done].
  destruct d; done.
Qed.

(** X8.  The normaliser has two degraded answers and tells them apart:
    without a key (absent or empty) every metric is unavailable with the
    message that a key is required, whatever the measurement call would
    give; with a key and a failed call every metric is unavailable with the
    message that the measurement failed.  The source is [unavailable] in
    exactly these cases, and then no metric has a status other than
    unavailable, nor a score; the source is never [estimated]. *)
Theorem degraded_vitals (apiKey : option str) (response : option PageSpeedData) :
  let v := fetchCoreWebVitals apiKey response in
  ((apiKey = None \/ apiKey = Some []) ->
   Forall (fun m => m = unavailableMetric "API key required") (metricsOf v))
  /\ ((exists c key, apiKey = Some (c :: key)) -> response = None ->
      Forall (fun m => m = unavailableMetric "Measurement failed") (metricsOf v))
  /\ (source v = source_unavailable
      <-> apiKey = None \/ apiKey = Some [] \/ response = None)
  /\ (source v = source_unavailable ->
      Forall (fun m => status m = unavailable /\ score m = None) (metricsOf v)
      /\ performanceScore v = None /\ speedIndex v = None)
  /\ source v <> estimated.
Proof.
  cbv zeta. repeat apply conj.
  - intros [->| ->]; repeat constructor.
  - intros (c & key & ->) ->. repeat constructor.
  - destruct apiKey as [[|c key]|], response as [data|]; cbn; try tauto.
    intros H. discriminate.
  - intros [H|[H|H]]; subst; [done|done|].
    by destruct apiKey as [[|c key]|].
  - destruct apiKey as [[|c key]|], response as [data|]; cbn;
      try (intros _; split; [repeat constructor|done]).
    discriminate.
  - by destruct apiKey as [[|c key]|], response as [data|].
Qed.

(** X9.  In every answer of the normaliser, degraded or measured, the
    status of each of the five metrics is the status of the score the
    metric carries, and the value shown for it is never the empty
    string. *)
Theorem metric_status_matches_score
        (apiKey : option str) (response : option PageSpeedData) :
  Forall (fun m => status m = getStatus (score m) /\ value m <> [])
         (metricsOf (fetchCoreWebVitals apiKey response)).
Proof.
  destruct apiKey as [[|c key]|], response as [data|];
    try (repeat constructor; done).
  unfold fetchCoreWebVitals, metricsOf. cbn [lcp fid cls fcp ttfb].
  repeat constructor; cbn [status score value]; try reflexivity;
    apply displayOr_nonempty;
    repeat match goal with
           | |- context [match ?x with Some _ => _ | None => _ end] => destruct x
           end;
    rewrite ?formatMetric_ms, ?formatMetric_plain; try done;
    intros H; apply app_eq_nil in H as [H _]; by apply toFixed_nonempty in H.
Qed.

(** X10.  The aggregate performance score: for a category score between
    0 and 1 the normaliser reports an integer between 0 and 100, except
    that a category score of exactly 0 is reported as absent. *)
Theorem performance_score_range
        (c : N) (key : str) (data : PageSpeedData) (s : Q) :
  categoryScore data = Some s -> (0 <= s)%Q -> (s <= 1)%Q ->
  match performanceScore (fetchCoreWebVitals (Some (c :: key)) (Some data)) with
  | None => (s == 0)%Q
  | Some n => ~ (s == 0)%Q /\ 0 <= n <= 100
  end.
Proof.
  intros Hs H0 H1. unfold fetchCoreWebVitals. cbn [performanceScore].
  rewrite Hs. destruct (Qeq_bool s 0) eqn:E.
  - by apply Qeq_bool_iff.
  - split; [intros Heq; apply Qeq_bool_iff in Heq; congruence|].
    unfold Math_round. split.
    + assert (H : (0 <= s * 100 + (1 # 2))%Q) by lra.
      by apply Qfloor_resp_le in H.
    + assert (H : (s * 100 + (1 # 2) <= 100 + (1 # 2))%Q) by lra.
      by apply Qfloor_resp_le in H.
Qed.

(** X11.  Field data never changes a verdict: two responses with the same
    lab audits and the same category score give the same status and score
    for every metric, the same TTFB entry, speed index, performance score
    and source, whatever their field data are. *)
Theorem field_data_never_changes_status
        (apiKey : option str) (a : option Audits) (cs : option Q)
        (f1 f2 : option FieldData) :
  let v1 := fetchCoreWebVitals apiKey
              (Some {| audits := a; categoryScore := cs; fieldMetrics := f1 |}) in
  let v2 := fetchCoreWebVitals apiKey
              (Some {| audits := a; categoryScore := cs; fieldMetrics := f2 |}) in
  map status (metricsOf v1) = map status (metricsOf v2)
  /\ map score (metricsOf v1) = map score (metricsOf v2)
  /\ ttfb v1 = ttfb v2
  /\ speedIndex v1 = speedIndex v2
  /\ performanceScore v1 = performanceScore v2
  /\ source v1 = source v2.
Proof. by destruct apiKey as [[|c key]|]. Qed.

(** X12.  The status is monotone in the score: a higher score never gets
    a worse status, and a present score never rates below an absent one. *)
Theorem getStatus_monotone (s t : Q) :
  (s <= t)%Q ->
  (statusRank (getStatus (Some s)) <= statusRank (getStatus (Some t)))%nat
  /\ (statusRank (getStatus None) < statusRank (getStatus (Some s)))%nat.
Proof.
  intros Hst. unfold getStatus.
  destruct (Qle_bool (9 # 10) s) eqn:Es9, (Qle_bool (9 # 10) t) eqn:Et9,
    (Qle_bool (1 # 2) s) eqn:Es5, (Qle_bool (1 # 2) t) eqn:Et5;
    cbn; split; try lia.
  all: repeat match goal with
              | H : Qle_bool _ _ = true |- _ => apply Qle_bool_iff in H
              | H : Qle_bool _ _ = false |- _ =>
                  apply not_true_iff_false in H; rewrite Qle_bool_iff in H
              end; exfalso; lra.
Qed.

End VitalsNormalizerMore.

(** ** The metrics extractor *)

Lemma exec_here_prefix i r s res :
  exec_here i r s = Some res ->
  exists rest, s = matched res ++ rest /\ Matches i r (matched res).
Proof.
  unfold exec_here. intros H.
  apply m_sound in H as (s1 & s2 & cap' & -> & Hm & [= <-]). cbn.
  rewrite length_app, Nat.add_sub, take_app_length. eauto.
Qed.

(** A global replacement does not lengthen the input when no match is
    shorter than the replacement. *)
Lemma replaceAll_from_length i r repl :
  (forall t, Matches i r t -> (length repl <= length t)%nat) ->
  forall s skip,
    (length (replaceAll_from i r repl s skip) <= length s - skip)%nat.
Proof.
  intros Hmin. induction s as [|x s IH]; intros skip; cbn.
  - destruct skip; [|done].
    destruct (exec_here i r []) as [res|] eqn:E; [|done].
    apply exec_here_prefix in E as (rest & E & Hm).
    apply Hmin in Hm. symmetry in E. apply app_eq_nil in E as [E _].
    rewrite E in Hm. rewrite length_app. cbn in *. lia.
  - destruct skip as [|n]; [|apply IH].
    destruct (exec_here i r (x :: s)) as [res|] eqn:E.
    + apply exec_here_prefix in E as (rest & E & Hm).
      apply Hmin in Hm. apply (f_equal length) in E.
      rewrite length_app in E. cbn in E.
      rewrite !length_app. specialize (IH (length (matched res) - 1)%nat).
      destruct (matched res) as [|y t]; cbn in *; lia.
    + cbn. specialize (IH 0%nat). lia.
Qed.

Lemma replaceAll_length i r repl s :
  (forall t, Matches i r t -> (length repl <= length t)%nat) ->
  (length (replaceAll i r repl s) <= length s)%nat.
Proof.
  intros Hmin. unfold replaceAll.
  pose proof (replaceAll_from_length i r repl Hmin s 0). lia.
Qed.

Lemma trimStart_suffix (s : str) : exists w, s = w ++ trimStart s.
Proof.
  induction s as [|c s [w IH]]; [by exists []|]. cbn.
  destruct (isSpace c); [|by exists []].
  exists (c :: w). cbn. by rewrite <- IH.
Qed.

Lemma trimStart_head (s : str) c r : trimStart s = c :: r -> isSpace c = false.
Proof.
  induction s as [|x s IH]; cbn; [done|].
  destruct (isSpace x) eqn:E; [done|]. by intros [= <- _].
Qed.

Lemma trimEnd_prefix (s : str) : exists w, s = trimEnd s ++ w.
Proof.
  unfold trimEnd. destruct (trimStart_suffix (rev s)) as [w Hw].
  exists (rev w). rewrite <- rev_app_distr, <- Hw. by rewrite rev_involutive.
Qed.

Lemma trim_length (s : str) : (length (trim s) <= length s)%nat.
Proof.
  unfold trim.
  destruct (trimEnd_prefix (trimStart s)) as [w1 H1].
  destruct (trimStart_suffix s) as [w2 H2].
  apply (f_equal length) in H1, H2. rewrite length_app in H1, H2. lia.
Qed.

(** [trim] leaves no white space at either end. *)
Lemma trim_ends (s : str) :
  (forall c r, trim s = c :: r -> isSpace c = false)
  /\ (forall c r, trim s = r ++ [c] -> isSpace c = false).
Proof.
  split; intros c r H.
  - unfold trim in H.
    destruct (trimEnd_prefix (trimStart s)) as [w Hw].
    rewrite H in Hw. by apply trimStart_head in Hw.
  - unfold trim, trimEnd in H.
    apply (f_equal (@rev N)) in H.
    rewrite rev_involutive, rev_app_distr in H. cbn in H.
    by apply trimStart_head in H.
Qed.

Section MetricsExtractorMore.
Variable new_URL : str -> option URL.t.

Lemma extractMetrics_fields (html url0 : str) (m : PageMetrics) :
  extractMetrics new_URL html url0 = Some m ->
  url m = url0
  /\ title m = match exec true Pat.title html with
               | Some r => trim (capture r) | None => [] end
  /\ description m = match exec true Pat.description html with
                     | Some r => trim (capture r) | None => [] end
  /\ h2Count m = len (matchAll true Pat.h2 html)
  /\ h3Count m = len (matchAll true Pat.h3 html)
  /\ imgCount m = len (matchAll true Pat.img html)
  /\ imgWithAltCount m
     = len (List.filter (test true Pat.alt) (matchAll true Pat.img html))
  /\ scriptCount m = len (matchAll true Pat.script html)
  /\ stylesheetCount m = len (matchAll true Pat.stylesheet html)
  /\ inlineStyleCount m = len (matchAll true Pat.style html)
  /\ htmlLength m = len html
  /\ isHttps m = startsWith (js "https://") url0
  /\ textToHtmlRatio m
     = Math_round (if 0 <? len html
                   then inject_Z (len (textContent html)) / inject_Z (len html) * 100
                   else 0)%Q.
Proof.
  unfold extractMetrics. intros H.
  destruct (new_URL url0) as [urlObj|]; [|done].
  destruct (countLinks new_URL urlObj (linkTags html)) as [i e].
  injection H as <-. cbn. done.
Qed.

Lemma countLink_step (urlObj : URL.t) (link : str) :
  let d := countLink new_URL urlObj (0, 0) link in
  0 <= fst d /\ 0 <= snd d /\ fst d + snd d <= 1.
Proof.
  cbv zeta. unfold countLink.
  repeat match goal with
         | |- context [match ?x with _ => _ end] => destruct x
         | |- context [if ?c then _ else _] => destruct c
         end; cbn; lia.
Qed.

Lemma countLinks_bounds (urlObj : URL.t) (links : list str) :
  let c := countLinks new_URL urlObj links in
  0 <= fst c /\ 0 <= snd c /\ fst c + snd c <= len links.
Proof.
  cbv zeta. induction links as [|link links IH] using rev_ind;
    [unfold countLinks, len; cbn; lia|].
  pose proof (countLinks_insert new_URL urlObj links [] link) as H.
  rewrite app_nil_r in H. rewrite H, countLink_delta. cbn [fst snd].
  pose proof (countLink_step urlObj link) as Hd. cbv zeta in Hd.
  unfold len in *. rewrite length_app. cbn [length]. lia.
Qed.

(** X13.  The record the extractor returns is consistent: every count is
    non-negative, the markup length is the length of the markup, the images
    with alt text are at most the images, the internal and external links
    together are at most the link tags, [hasH1] says that the H1 count is
    positive, and [uniqueH1] is never true without [hasH1]. *)
Theorem extracted_metrics_are_consistent (html url0 : str) (m : PageMetrics) :
  extractMetrics new_URL html url0 = Some m ->
  url m = url0 /\ htmlLength m = len html
  /\ 0 <= h1Count m /\ 0 <= h2Count m /\ 0 <= h3Count m
  /\ 0 <= scriptCount m /\ 0 <= stylesheetCount m /\ 0 <= inlineStyleCount m
  /\ 0 <= imgWithAltCount m <= imgCount m
  /\ 0 <= internalLinkCount m /\ 0 <= externalLinkCount m
  /\ internalLinkCount m + externalLinkCount m <= linkCount m
  /\ (hasH1 m = true <-> 0 < h1Count m)
  /\ (uniqueH1 m = true -> hasH1 m = true).
Proof.
  intros H.
  pose proof (extractMetrics_fields _ _ _ H)
    as (Hu & _ & _ & H2 & H3 & Hi & Ha & Hs & Hss & Hst & Hl & _).
  apply extractMetrics_inv in H as (u & _ & Hc & Hh & Hq & Hlc & Hcounts).
  pose proof (countLinks_bounds u (linkTags html)) as Hb. cbv zeta in Hb.
  rewrite <- Hcounts in Hb. cbn [fst snd] in Hb.
  rewrite Hu, Hl, Hc, H2, H3, Hi, Ha, Hs, Hss, Hst, Hh, Hq.
  rewrite Hlc in *. unfold len in *.
  pose proof (filter_length_le (test true Pat.alt) (matchAll true Pat.img html)).
  repeat apply conj; try lia; try done.
  all: first [ by intros ?%Z.ltb_lt
             | by intros [_ ?]%andb_true_iff
             | intros ?; by apply Z.ltb_lt ].
Qed.

Lemma textContent_length (html : str) :
  (length (textContent html) <= length html)%nat.
Proof.
  unfold textContent.
  etransitivity; [apply trim_length|].
  etransitivity; [apply replaceAll_length|].
  { intros t Ht. inversion Ht; subst. cbn. lia. }
  etransitivity; [apply replaceAll_length|].
  { intros t Ht. apply Matches_Cat_inv in Ht as (s1 & s2 & -> & H1 & _).
    apply Matches_Cat_inv in H1 as (s3 & s4 & -> & H1 & _).
    inversion H1; subst. cbn. lia. }
  etransitivity; [apply replaceAll_length; cbn; lia|].
  apply replaceAll_length. cbn. lia.
Qed.

(** X14.  The text-to-markup ratio is a percentage: an integer between 0
    and 100 for every markup, and 0 for the empty markup, because the text
    left after removing script and style blocks and tags, collapsing white
    space and trimming is never longer than the markup. *)
Theorem text_ratio_is_a_percentage (html url0 : str) (m : PageMetrics) :
  extractMetrics new_URL html url0 = Some m ->
  0 <= textToHtmlRatio m <= 100
  /\ (length (textContent html) <= length html)%nat
  /\ (html = [] -> textToHtmlRatio m = 0).
Proof.
  intros H.
  apply extractMetrics_fields in H
    as (_ & _ & _ & _ & _ & _ & _ & _ & _ & _ & _ & _ & Hr).
  pose proof (textContent_length html) as Hlen.
  split; [|split; [exact Hlen|by intros ->; rewrite Hr]].
  rewrite Hr. unfold Math_round.
  destruct (0 <? len html) eqn:E; [|by cbn].
  apply Z.ltb_lt in E.
  assert (Ha : (0 <= inject_Z (len (textContent html)))%Q).
  { rewrite <- (Zle_Qle 0). unfold len. lia. }
  assert (Hb : (0 < inject_Z (len html))%Q) by by rewrite <- (Zlt_Qlt 0).
  assert (Hab : (inject_Z (len (textContent html)) <= inject_Z (len html))%Q).
  { rewrite <- Zle_Qle. unfold len. lia. }
  assert (H0 : (0 <= inject_Z (len (textContent html)) / inject_Z (len html))%Q).
  { apply Qle_shift_div_l; [done|]. lra. }
  assert (H1 : (inject_Z (len (textContent html)) / inject_Z (len html) <= 1)%Q).
  { apply Qle_shift_div_r; [done|]. lra. }
  split.
  - assert (Hq : (0 <= inject_Z (len (textContent html)) / inject_Z (len html)
                       * 100 + (1 # 2))%Q) by lra.
    by apply Qfloor_resp_le in Hq.
  - assert (Hq : (inject_Z (len (textContent html)) / inject_Z (len html)
                  * 100 + (1 # 2) <= 100 + (1 # 2))%Q) by lra.
    by apply Qfloor_resp_le in Hq.
Qed.

(** X15.  The title and the description the extractor returns carry no
    white space at either end, and both are empty when the markup has no
    title element and no description meta tag of the expected form. *)
Theorem title_and_description_are_trimmed (html url0 : str) (m : PageMetrics) :
  extractMetrics new_URL html url0 = Some m ->
  (forall c r, title m = c :: r -> isSpace c = false)
  /\ (forall c r, title m = r ++ [c] -> isSpace c = false)
  /\ (forall c r, description m = c :: r -> isSpace c = false)
  /\ (forall c r, description m = r ++ [c] -> isSpace c = false)
  /\ (test true Pat.title html = false -> title m = [])
  /\ (test true Pat.description html = false -> description m = []).
Proof.
  intros H.
  apply extractMetrics_fields in H as (_ & Ht & Hd & _).
  rewrite Ht, Hd. unfold test.
  pose proof (fun s => proj1 (trim_ends s)) as Hhead.
  pose proof (fun s => proj2 (trim_ends s)) as Hlast.
  destruct (exec true Pat.title html) as [rt|],
    (exec true Pat.description html) as [rd|];
    repeat apply conj; try done;
    intros c r E;
    first [ by destruct r | by eapply Hhead | by eapply Hlast ].
Qed.

End MetricsExtractorMore.

(** ** Identity and static assets *)

Lemma exec_here_exec i r s res :
  exec_here i r s = Some res -> exec i r s = Some res.
Proof. intros H. destruct s; cbn; by rewrite H. Qed.

Lemma exec_inv i r s res :
  exec i r s = Some res ->
  exists pre s', s = pre ++ s' /\ exec_here i r s' = Some res.
Proof.
  induction s as [|x s IH]; cbn.
  - destruct (exec_here i r []) eqn:E; [|done].
    intros [= <-]. by exists [], [].
  - destruct (exec_here i r (x :: s)) eqn:E.
    + intros [= <-]. by exists [], (x :: s).
    + intros H. destruct (IH H) as (pre & s' & -> & H').
      by exists (x :: pre), s'.
Qed.

(** A literal run matches itself at the head of the input. *)
Lemma m_lit {R} i (p : string) (t : str) cap (k : str -> option str -> option R) :
  m i (lit p) (js p ++ t) cap k = k t cap.
Proof.
  unfold lit, js. induction (list_ascii_of_string p) as [|a l IH]; [done|].
  cbn [fold_right map app m]. unfold cset_mem. by rewrite N.eqb_refl.
Qed.

(** Without the [i] flag a literal run matches nothing else. *)
Lemma Matches_lit (p : string) (t : str) : Matches false (lit p) t -> t = js p.
Proof.
  unfold lit, js. revert t.
  induction (list_ascii_of_string p) as [|a l IH]; intros t H; cbn in *.
  - by inversion H.
  - apply Matches_Cat_inv in H as (s1 & s2 & -> & H1 & H2).
    inversion H1 as [|c x Hx| | | | | | |]; subst.
    cbn in Hx. apply N.eqb_eq in Hx. subst. cbn. f_equal. by apply IH.
Qed.

(** A greedy star stops where the class ends, if the rest of the pattern
    matches there. *)
Lemma star_greedy_stop {R} i c s1 s2 (k : str -> option R) :
  Forall (fun y => cset_mem i c y = true) s1 ->
  (forall x r, s2 = x :: r -> cset_mem i c x = false) ->
  is_Some (k s2) ->
  star_greedy i c (s1 ++ s2) k = k s2.
Proof.
  intros Hall Hstop [v Hv]. induction Hall as [|y s1 Hy _ IH]; cbn.
  - destruct s2 as [|x r]; cbn; [done|]. by rewrite (Hstop x r eq_refl).
  - by rewrite Hy, IH, Hv.
Qed.

Lemma startsWith_app (p t : str) : startsWith p (p ++ t) = true.
Proof. induction p as [|c p IH]; [done|]. cbn. by rewrite N.eqb_refl. Qed.

Lemma includes_infix (p pre post : str) :
  Worker.includes p (pre ++ p ++ post) = true.
Proof.
  induction pre as [|x pre IH]; cbn [app].
  - destruct (p ++ post) eqn:E; cbn; rewrite <- ?E, startsWith_app; done.
  - cbn. rewrite IH. apply orb_true_r.
Qed.

Section Identity.
Import Worker.

Lemma userId_exec_here (id rest : str) :
  id <> [] -> Forall (fun c => c <> 59%N) id ->
  (forall x r, rest = x :: r -> x = 59%N) ->
  exec_here false userIdPattern (js "user_id=" ++ id ++ rest)
  = Some {| matched := js "user_id=" ++ id; group1 := Some id |}.
Proof.
  intros Hne Hall Hrest. unfold exec_here, userIdPattern, cat.
  cbn [fold_right m]. rewrite m_lit.
  destruct id as [|y id]; [done|]. cbn [app].
  apply Forall_cons in Hall as [Hy Hall].
  assert (Hmem : forall x, x <> 59%N -> cset_mem false (noneOf ";") x = true).
  { intros x Hx. apply N.eqb_neq in Hx.
    unfold cset_mem, noneOf, canon. change (js ";") with [59%N].
    cbn [existsb andb]. by rewrite Hx. }
  rewrite (Hmem y Hy).
  rewrite star_greedy_stop.
  - assert (Htake : forall p r : str, take (length (p ++ r) - length r) (p ++ r) = p).
    { intros p r. by rewrite length_app, Nat.add_sub, take_app_length. }
    f_equal. f_equal.
    + change (js "user_id=" ++ y :: id ++ rest)
        with (js "user_id=" ++ (y :: id) ++ rest).
      rewrite app_assoc. apply Htake.
    + f_equal. apply (Htake (y :: id) rest).
  - eapply Forall_impl; [exact Hall|]. intros x Hx. by apply Hmem.
  - intros x r ->. rewrite (Hrest x r eq_refl). by vm_compute.
  - eauto.
Qed.

(** X16.  The identity cookie round-trips: for a user id that is not
    empty and has no semicolon, [getUserId] reads the id back from the
    [Set-Cookie] value the worker issues for it, and from a [Cookie] header
    that starts with [user_id=<id>], alone or followed by further cookies;
    such a header is not taken for a new user's. *)
Theorem user_cookie_round_trip (id rest fresh : str) :
  id <> [] -> Forall (fun c => c <> 59%N) id ->
  (forall x r, rest = x :: r -> x = 59%N) ->
  getUserId (Some (js "user_id=" ++ id ++ rest)) fresh = id
  /\ getUserId (Some (userCookie id)) fresh = id
  /\ isNewUser (Some (js "user_id=" ++ id ++ rest)) = false.
Proof.
  intros Hne Hall Hrest. repeat apply conj.
  - pose proof (exec_here_exec _ _ _ _ (userId_exec_here id rest Hne Hall Hrest))
      as H.
    unfold getUserId.
    change (default [] (Some (js "user_id=" ++ id ++ rest)))
      with (js "user_id=" ++ id ++ rest).
    by rewrite H.
  - pose proof (exec_here_exec _ _ _ _
                  (userId_exec_here id (js "; Path=/; Max-Age=31536000; SameSite=Lax")
                     Hne Hall ltac:(by intros x r [= <- _]))) as H.
    unfold getUserId, userCookie.
    change (default [] (Some ?c)) with c.
    by rewrite H.
  - pose proof (includes_infix (js "user_id=") [] (id ++ rest)) as H.
    unfold isNewUser. change ([] ++ ?x) with x in H. by rewrite H.
Qed.

Lemma userId_exec_inv (c : str) (res : MatchResult) :
  exec false userIdPattern c = Some res ->
  exists pre post,
    c = pre ++ js "user_id=" ++ capture res ++ post
    /\ capture res <> [] /\ Forall (fun x => x <> 59%N) (capture res).
Proof.
  intros H. apply exec_inv in H as (pre & s' & -> & H).
  unfold exec_here, userIdPattern, cat in H. cbn [fold_right m] in H.
  apply m_sound in H as (s1 & s2 & cap1 & -> & H1 & H).
  apply Matches_lit in H1. subst s1.
  destruct s2 as [|x s2]; [done|].
  destruct (cset_mem false (noneOf ";") x) eqn:Hx; [|done].
  apply star_greedy_sound in H as (s3 & s4 & -> & H3 & [= <-]).
  exists pre, s4. unfold capture. cbn [group1 default].
  assert (Htake : take (S (length (s3 ++ s4)) - length s4) (x :: s3 ++ s4)
                  = x :: s3).
  { rewrite length_app.
    replace (S (length s3 + length s4) - length s4)%nat with (length (x :: s3))
      by (cbn; lia).
    apply (take_app_length (x :: s3) s4). }
  unfold id. rewrite Htake.
  split; [done|].
  split; [done|].
  assert (Hmem : forall y, cset_mem false (noneOf ";") y = true -> y <> 59%N).
  { intros y Hy ->. by vm_compute in Hy. }
  constructor; [by apply Hmem|].
  eapply Forall_impl; [exact H3|]. intros y Hy. by apply Hmem.
Qed.

(** X17.  What [getUserId] returns is either a non-empty id without a
    semicolon that stands in the [Cookie] header right after [user_id=], or
    the fresh random id; an id read from the header is never answered with
    a new [Set-Cookie], and a request that is taken for a new user's always
    gets the fresh id.  A header whose [user_id=] has no value gets the
    fresh id and yet no [Set-Cookie]. *)
Theorem user_id_comes_from_cookie_or_is_fresh (header : option str) (fresh : str) :
  let id := getUserId header fresh in
  ((exists c pre post,
       header = Some c /\ c = pre ++ js "user_id=" ++ id ++ post
       /\ id <> [] /\ Forall (fun x => x <> 59%N) id
       /\ isNewUser header = false)
   \/ id = fresh)
  /\ (isNewUser header = true -> id = fresh)
  /\ (getUserId (Some (js "user_id=")) fresh = fresh
      /\ isNewUser (Some (js "user_id=")) = false).
Proof.
  cbv zeta.
  assert (Hmain :
    (exists c pre post,
        header = Some c /\ c = pre ++ js "user_id=" ++ getUserId header fresh ++ post
        /\ getUserId header fresh <> []
        /\ Forall (fun x => x <> 59%N) (getUserId header fresh)
        /\ isNewUser header = false)
    \/ (getUserId header fresh = fresh
        /\ exec false userIdPattern (default [] header) = None)).
  { unfold getUserId.
    destruct (exec false userIdPattern (default [] header)) as [res|] eqn:E;
      [left|by right].
    destruct header as [c|]; [|by vm_compute in E].
    cbn [default] in E.
    destruct (userId_exec_inv c res E) as (pre & post & Hc & Hne & Hall).
    exists c, pre, post. repeat split; try done.
    unfold isNewUser. rewrite Hc at 1. by rewrite includes_infix. }
  repeat apply conj.
  - destruct Hmain as [H|[H _]]; [by left|by right].
  - intros Hnew. destruct Hmain as [(c & pre & post & _ & _ & _ & _ & H)|[H _]];
      [congruence|done].
  - by vm_compute.
  - by vm_compute.
Qed.

(** X18.  The content type follows the last extension of the path, for
    any path: [.html], [.js], [.css], [.json], [.png], [.jpg], [.jpeg],
    [.svg] and [.ico] each get their type whatever comes before; the match
    is case-sensitive, and an empty path gets the default type. *)
Theorem content_type_by_extension (base : str) :
  getContentType (base ++ js ".html") = js "text/html"
  /\ getContentType (base ++ js ".js") = js "application/javascript"
  /\ getContentType (base ++ js ".css") = js "text/css"
  /\ getContentType (base ++ js ".json") = js "application/json"
  /\ getContentType (base ++ js ".png") = js "image/png"
  /\ getContentType (base ++ js ".jpg") = js "image/jpeg"
  /\ getContentType (base ++ js ".jpeg") = js "image/jpeg"
  /\ getContentType (base ++ js ".svg") = js "image/svg+xml"
  /\ getContentType (base ++ js ".ico") = js "image/x-icon"
  /\ getContentType (base ++ js ".HTML") = js "application/octet-stream"
  /\ getContentType (base ++ js ".txt") = js "application/octet-stream"
  /\ getContentType [] = js "application/octet-stream".
Proof.
  unfold getContentType, endsWith.
  repeat apply conj; rewrite ?rev_app_distr; reflexivity.
Qed.

End Identity.

Section StaticAssets.
Import Worker.

(** X19.  Static serving never fails while the bucket holds
    [index.html]: every request is then answered 200.  A path without a
    dot (and the root) is answered with [index.html] as [text/html]; a path
    with a dot whose asset is in the bucket is answered with that asset and
    the content type of its extension; a path whose asset is missing is
    answered with [index.html] as [text/html] and status 200 as well; 404 is
    answered only when [index.html] itself is missing.  No static answer
    carries CORS headers or a cookie. *)
Theorem static_serving (env : Env) (request : Request) :
  let response := serveStaticAsset env request in
  let index := STATIC_CONTENT env !! js "index.html" in
  (is_Some index -> status response = 200)
  /\ (status response = 200 \/ status response = 404)
  /\ (status response = 404
      -> index = None /\ body response = BodyText (js "Not Found"))
  /\ ((pathname request = js "/" \/ includes (js ".") (pathname request) = false) ->
      forall a, index = Some a ->
      response = {| status := 200; contentType := Some (js "text/html");
                    cors := false; setCookie := None; body := BodyAsset a |})
  /\ (forall a,
         includes (js ".") (pathname request) = true ->
         STATIC_CONTENT env !! drop 1 (pathname request) = Some a ->
         response = {| status := 200;
                       contentType := Some (getContentType (pathname request));
                       cors := false; setCookie := None; body := BodyAsset a |})
  /\ (forall a,
         includes (js ".") (pathname request) = true ->
         STATIC_CONTENT env !! drop 1 (pathname request) = None ->
         index = Some a ->
         response = {| status := 200; contentType := Some (js "text/html");
                       cors := false; setCookie := None; body := BodyAsset a |})
  /\ cors response = false /\ setCookie response = None.
Proof.
  cbv zeta. unfold serveStaticAsset.
  change (@lookup (list N) Asset) with (@lookup str Asset).
  assert (Hroot : includes (js ".") (js "/") = false) by reflexivity.
  assert (Hidx : drop 1 (js "/index.html") = js "index.html") by reflexivity.
  assert (Hty : getContentType (js "/index.html") = js "text/html") by reflexivity.
  assert (Hnot : str_eqb (pathname request) (js "/") = false ->
                 pathname request <> js "/").
  { intros E H. apply (proj2 (str_eqb_eq _ _)) in H. congruence. }
  destruct (STATIC_CONTENT env !! js "index.html") as [b|] eqn:Ei;
    destruct (str_eqb (pathname request) (js "/")) eqn:Eroot;
    try apply str_eqb_eq in Eroot; try specialize (Hnot eq_refl);
    rewrite ?Eroot, ?Hroot; cbn [orb negb];
    destruct (includes (js ".") (pathname request)) eqn:Edot; cbn [negb];
    rewrite ?Hidx, ?Hty, ?Ei;
    repeat match goal with
           | |- context [match ?x with Some _ => _ | None => _ end] =>
               destruct x eqn:?
           end;
    cbn [status body cors setCookie contentType]; repeat apply conj;
    intros; simplify_eq;
    first [done | by left | by right | by split | by intuition].
Qed.

End StaticAssets.

(** ** The report pipeline *)

Section AnalysisExtraction.
Import Worker.

Lemma m_one_char {R} (p : string) (code x : N) (t : str) cap
      (k : str -> option str -> option R) :
  js p = [code] ->
  m false (lit p) (x :: t) cap k = if (x =? code)%N then k t cap else None.
Proof.
  unfold lit, js. destruct (list_ascii_of_string p) as [|a [|b l]]; try done.
  intros [= <-]. reflexivity.
Qed.

Lemma json_no_close {R} (c : str) (kf : str -> option str -> option R) cap :
  125%N ∉ c ->
  star_greedy false CAll c (fun s' => m false (lit "}") s' cap kf) = None.
Proof.
  induction c as [|x c IH]; intros Hc; [done|].
  cbn [star_greedy cset_mem]. rewrite IH by set_solver.
  cbn [orElse]. rewrite (m_one_char "}" 125) by done.
  destruct (N.eqb_spec x 125); [set_solver|done].
Qed.

Lemma json_last_close {R} (b c : str) (kf : str -> option str -> option R) cap :
  125%N ∉ c -> is_Some (kf c cap) ->
  star_greedy false CAll (b ++ 125%N :: c) (fun s' => m false (lit "}") s' cap kf)
  = kf c cap.
Proof.
  intros Hc [v Hv].
  assert (Hk : m false (lit "}") (125%N :: c) cap kf = kf c cap)
    by apply (m_lit false "}" c cap kf).
  induction b as [|y b IH]; cbn [app star_greedy cset_mem].
  - rewrite json_no_close by done. cbn [orElse]. exact Hk.
  - by rewrite IH, Hv.
Qed.

(** The span the pattern cuts out: from the first opening brace to the
    last closing brace. *)
Lemma json_span (a b c : str) :
  123%N ∉ a -> 125%N ∉ c ->
  exec false jsonPattern (a ++ 123%N :: b ++ 125%N :: c)
  = Some {| matched := 123%N :: b ++ [125%N]; group1 := None |}.
Proof.
  intros Ha Hc. induction a as [|x a IH]; cbn [app].
  - apply exec_here_exec. unfold exec_here, jsonPattern, cat.
    cbn [fold_right m].
    rewrite (m_lit false "{" (b ++ 125%N :: c)).
    rewrite json_last_close; [|done|by eauto].
    f_equal. f_equal.
    change (js "{" ++ b ++ 125%N :: c) with (123%N :: b ++ 125%N :: c).
    replace (123%N :: b ++ 125%N :: c) with ((123%N :: b ++ [125%N]) ++ c)
      by (cbn; by rewrite <- app_assoc).
    by rewrite length_app, Nat.add_sub, take_app_length.
  - cbn [exec].
    assert (exec_here false jsonPattern (x :: a ++ 123%N :: b ++ 125%N :: c) = None)
      as ->.
    { unfold exec_here, jsonPattern, cat. cbn [fold_right m].
      rewrite (m_one_char "{" 123) by done.
      destruct (N.eqb_spec x 123); [set_solver|done]. }
    apply IH. set_solver.
Qed.

Lemma json_no_open (text : str) :
  123%N ∉ text -> exec false jsonPattern text = None.
Proof.
  induction text as [|x text IH]; intros H; [done|].
  cbn [exec].
  assert (exec_here false jsonPattern (x :: text) = None) as ->.
  { unfold exec_here, jsonPattern, cat. cbn [fold_right m].
    rewrite (m_one_char "{" 123) by done.
    destruct (N.eqb_spec x 123); [set_solver|done]. }
  apply IH. set_solver.
Qed.

Variable JSON_parse : str -> option Json.

(** X20.  [analyzeWithAI] never returns an unchecked answer: the result
    is the object parsed from the model's text with its [scores],
    [findings] and [recommendations] members all present and truthy, or
    else exactly the fallback analysis of the metrics.  What is parsed is
    the text from the first opening brace to the last closing brace; an
    exception of the model, a text without an opening brace and a span that
    does not parse all give the fallback, and so does an answer without
    text when the parser reads [{}] as the empty object. *)
Theorem analyzeWithAI_validates (outcome : AiOutcome) (metrics : PageMetrics) :
  let result := analyzeWithAI JSON_parse outcome metrics in
  let fallback := FromFallback (Fallback.createFallbackAnalysis metrics) in
  (result = fallback
   \/ exists response span analysis,
        outcome = AiResponse response
        /\ exec false jsonPattern (aiTextOf response) = Some span
        /\ JSON_parse (matched span) = Some analysis
        /\ memberFalsy analysis "scores" = Some false
        /\ memberFalsy analysis "findings" = Some false
        /\ memberFalsy analysis "recommendations" = Some false
        /\ result = FromAI analysis)
  /\ (outcome = AiThrows -> result = fallback)
  /\ (forall text, outcome = AiResponse (Some text) -> 123%N ∉ text ->
      text <> [] -> result = fallback)
  /\ (forall a b c,
         outcome = AiResponse (Some (a ++ 123%N :: b ++ 125%N :: c)) ->
         123%N ∉ a -> 125%N ∉ c ->
         match JSON_parse (123%N :: b ++ [125%N]) with
         | None => result = fallback
         | Some analysis =>
             result = FromAI analysis
             \/ (result = fallback
                 /\ (memberFalsy analysis "scores" <> Some false
                     \/ memberFalsy analysis "findings" <> Some false
                     \/ memberFalsy analysis "recommendations" <> Some false))
         end)
  /\ (JSON_parse (js "{}") = Some (JObj []) ->
      (outcome = AiResponse None \/ outcome = AiResponse (Some [])) ->
      result = fallback).
Proof.
  cbv zeta. repeat apply conj.
  - unfold analyzeWithAI.
    destruct outcome as [|response]; [by left|].
    destruct (exec false jsonPattern (aiTextOf response)) as [span|] eqn:Es;
      [|by left].
    destruct (JSON_parse (matched span)) as [analysis|] eqn:Ep; [|by left].
    destruct (memberFalsy analysis "scores") as [[|]|] eqn:E1; try by left.
    destruct (memberFalsy analysis "findings") as [[|]|] eqn:E2; try by left.
    destruct (memberFalsy analysis "recommendations") as [[|]|] eqn:E3;
      try by left.
    right. by exists response, span, analysis.
  - by intros ->.
  - intros text -> Hno Hne. unfold analyzeWithAI, aiTextOf.
    destruct text as [|x text]; [done|]. cbn [truthy].
    by rewrite json_no_open.
  - intros a b c -> Ha Hc. unfold analyzeWithAI, aiTextOf.
    assert (truthy (a ++ 123%N :: b ++ 125%N :: c) = true) as ->
      by by destruct a.
    rewrite json_span by done. cbn [matched].
    destruct (JSON_parse (123%N :: b ++ [125%N])) as [analysis|]; [|done].
    destruct (memberFalsy analysis "scores") as [[|]|];
      try (right; split; [done|left; congruence]).
    destruct (memberFalsy analysis "findings") as [[|]|];
      try (right; split; [done|right; left; congruence]).
    destruct (memberFalsy analysis "recommendations") as [[|]|];
      try (right; split; [done|right; right; congruence]).
    by left.
  - intros Hp Hout. unfold analyzeWithAI.
    assert (exec false jsonPattern (js "{}")
            = Some {| matched := js "{}"; group1 := None |}) as Hs by reflexivity.
    destruct Hout as [-> | ->]; cbn [aiTextOf truthy]; rewrite Hs; cbn [matched];
      by rewrite Hp.
Qed.

End AnalysisExtraction.

(** ** The worker *)

Section WorkerPipeline.
Import Worker.
Variable new_URL : str -> option URL.t.
Variable JSON_parse : str -> option Json.
Variable JSON_stringify : AnalysisValue -> Vitals.CoreWebVitals -> str.

Lemma stub_withStub (env : Env) (u u' : str) (st : InspectorDO.State) :
  stub (withStub env u st) u' = if decide (u = u') then st else stub env u'.
Proof.
  unfold stub, withStub. cbn [INSPECTOR_DO].
  rewrite lookup_insert. by destruct (decide (u = u')).
Qed.

Lemma store_list (ok : bool) (st : InspectorDO.State) :
  InspectorDO.fetch ok InspectorDO.listRequest st
  = (st, {| InspectorDO.status := 200;
            InspectorDO.body := InspectorDO.ReportList (InspectorDO.reports st) |}).
Proof. reflexivity. Qed.

Lemma store_add (ok : bool) (r : InspectorDO.Report) (st : InspectorDO.State) :
  InspectorDO.reports (fst (InspectorDO.fetch ok (InspectorDO.addRequest r) st))
  = take 50 (r :: InspectorDO.reports st).
Proof. change (InspectorDO.fetch ok (InspectorDO.addRequest r) st)
         with (InspectorDO.add ok r st). by rewrite add_state. Qed.

(** The report [handleAnalyze] builds. *)
Lemma handleAnalyze_cases (request : Request) (env : Env) (world : World)
      (env' : Env) (response : Response) :
  handleAnalyze new_URL JSON_parse JSON_stringify request env world
  = Some (env', response) ->
  (env' = env /\ status response = 400 /\ setCookie response = None
   /\ exists message, body response = BodyError message)
  \/ exists targetUrl ok st statusText html metrics,
       json request = Some (Some targetUrl)
       /\ validUrlPrefix targetUrl = true
       /\ pageFetch world = Fetched ok st statusText (inl html)
       /\ extractMetrics new_URL
            (if 200000 <? len html then take (Z.to_nat 200000) html else html)
            targetUrl = Some metrics
       /\ let report :=
            {| InspectorDO.id := reportId world;
               InspectorDO.url := targetUrl;
               InspectorDO.title := title metrics;
               InspectorDO.description := description metrics;
               InspectorDO.reportText :=
                 JSON_stringify (analyzeWithAI JSON_parse (ai world) metrics)
                   (Vitals.fetchCoreWebVitals (PAGESPEED_API_KEY env) (pageSpeed world));
               InspectorDO.metrics := metrics;
               InspectorDO.createdAt := now world |} in
          let userId := getUserId (cookie request) (freshUserId world) in
          env' = withStub env userId
                   (fst (InspectorDO.fetch (putOk world)
                           (InspectorDO.addRequest report) (stub env userId)))
          /\ response = withCookie (cookie request) userId
                          (jsonResponse 200 (BodyReport report)).
Proof.
  unfold handleAnalyze. intros H.
  destruct (json request) as [[targetUrl|]|] eqn:Ej; [| |done].
  - cbn [default from_option id] in H. unfold validUrlPrefix.
    destruct (truthy targetUrl) eqn:Et; cbn [negb orb andb] in H |- *;
      [|injection H as <- <-; left; cbn; eauto].
    destruct (startsWith (js "http://") targetUrl) eqn:E1;
      destruct (startsWith (js "https://") targetUrl) eqn:E2;
      cbn [negb orb andb] in H |- *;
      try (injection H as <- <-; left; cbn; by eauto).
    all: destruct (pageFetch world) as [error|ok st statusText [html|error]] eqn:Ef;
      try (injection H as <- <-; left; cbn; by eauto);
      destruct ok; try (injection H as <- <-; left; cbn; by eauto).
    all: destruct (extractMetrics new_URL _ targetUrl) as [metrics|] eqn:Em; [|done].
    all: destruct (InspectorDO.fetch _ _ _) as [st' resp'] eqn:Es.
    all: injection H as <- <-; right.
    all: exists targetUrl, true, st, statusText, html, metrics.
    all: rewrite Es, Et, E1, E2; cbn [fst]; done.
  - cbn [default truthy negb orb] in H. injection H as <- <-. left. cbn. eauto.
Qed.

Lemma withCookie_fields (c : option str) (u : str) (r : Response) :
  status (withCookie c u r) = status r
  /\ body (withCookie c u r) = body r
  /\ cors (withCookie c u r) = cors r
  /\ contentType (withCookie c u r) = contentType r
  /\ setCookie (withCookie c u r)
     = if isNewUser c then Some (userCookie u) else setCookie r.
Proof. unfold withCookie. by destruct (isNewUser c). Qed.

(** X21.  Only an analysis that succeeds changes a history.  Whatever the
    request and whatever the outside world answers, the worker leaves the
    key and the static bucket alone; a history differs afterwards only for
    the user of the request, and only when the request was a POST to
    [/api/analyze] answered 200; every other answer (a rejected URL, a page
    that cannot be fetched, an exception, a history read, a static asset, a
    preflight) leaves every user's history as it was. *)
Theorem only_a_successful_analysis_changes_a_history
        (request : Request) (env : Env) (world : World) :
  let result := fetch new_URL JSON_parse JSON_stringify request env world in
  let env' := fst result in
  let response := snd result in
  PAGESPEED_API_KEY env' = PAGESPEED_API_KEY env
  /\ STATIC_CONTENT env' = STATIC_CONTENT env
  /\ (forall u, stub env' u <> stub env u ->
      method request = js "POST" /\ pathname request = js "/api/analyze"
      /\ status response = 200
      /\ u = getUserId (cookie request) (freshUserId world))
  /\ (status response <> 200 -> forall u, stub env' u = stub env u)
  /\ (method request = js "OPTIONS" -> env' = env /\ response = handleCORS).
Proof.
  cbv zeta. unfold fetch.
  destruct (str_eqb (method request) (js "OPTIONS")) eqn:Eo.
  { cbn [fst snd]. repeat apply conj; try done. }
  assert (Hopt : method request <> js "OPTIONS").
  { intros H. apply (proj2 (str_eqb_eq _ _)) in H. congruence. }
  destruct (str_eqb (pathname request) (js "/api/analyze")
            && str_eqb (method request) (js "POST")) eqn:Ea.
  - apply andb_true_iff in Ea as [Ep Em]. apply str_eqb_eq in Ep, Em.
    destruct (handleAnalyze _ _ _ request env world) as [[env' response]|] eqn:E;
      cbn [fst snd]; [|repeat apply conj; try done].
    apply handleAnalyze_cases in E
      as [(-> & Hs & _)|(t & ok & st & stx & html & mt & _ & _ & _ & _ & E)].
    + repeat apply conj; try done.
    + cbv zeta in E. destruct E as [-> ->].
      destruct (withCookie_fields (cookie request)
                  (getUserId (cookie request) (freshUserId world))
                  (jsonResponse 200 (BodyReport
                     {| InspectorDO.id := reportId world;
                        InspectorDO.url := t;
                        InspectorDO.title := title mt;
                        InspectorDO.description := description mt;
                        InspectorDO.reportText :=
                          JSON_stringify (analyzeWithAI JSON_parse (ai world) mt)
                            (Vitals.fetchCoreWebVitals (PAGESPEED_API_KEY env)
                               (pageSpeed world));
                        InspectorDO.metrics := mt;
                        InspectorDO.createdAt := now world |})))
        as (Hst & _).
      repeat apply conj; try done.
      intros u Hu. rewrite stub_withStub in Hu.
      destruct (decide (_ = u)) as [<-|]; [|done]. by rewrite Hst.
  - destruct (str_eqb (pathname request) (js "/api/history")
              && str_eqb (method request) (js "GET")) eqn:Eh.
    + unfold handleHistory. rewrite store_list. cbn [InspectorDO.body fst snd].
      repeat apply conj; try done.
      * intros u Hu. rewrite stub_withStub in Hu. by destruct (decide (_ = u)) as [<-|].
      * intros _ u. rewrite stub_withStub. by destruct (decide (_ = u)) as [<-|].
    + cbn [fst snd]. repeat apply conj; try done.
Qed.

(** X22.  A report the worker answers with is the report it stored: when
    [handleAnalyze] answers with a report, the status is 200, the URL of the
    report is the requested one and passed the prefix check, its id, time,
    title and description are the generated id, the clock and those of its
    metrics, its metrics were extracted from at most the first 200,000
    characters of the page, the report is the head of the user's log, cut
    to 50, and no other user's history changed.  A [Set-Cookie] for the
    user id is sent exactly when the request is taken for a new user's. *)
Theorem analysis_report_is_stored
        (request : Request) (env : Env) (world : World)
        (env' : Env) (response : Response) (report : InspectorDO.Report) :
  handleAnalyze new_URL JSON_parse JSON_stringify request env world
  = Some (env', response) ->
  body response = BodyReport report ->
  let userId := getUserId (cookie request) (freshUserId world) in
  status response = 200 /\ cors response = true
  /\ json request = Some (Some (InspectorDO.url report))
  /\ validUrlPrefix (InspectorDO.url report) = true
  /\ InspectorDO.id report = reportId world
  /\ InspectorDO.createdAt report = now world
  /\ InspectorDO.title report = title (InspectorDO.metrics report)
  /\ InspectorDO.description report = description (InspectorDO.metrics report)
  /\ url (InspectorDO.metrics report) = InspectorDO.url report
  /\ 0 <= htmlLength (InspectorDO.metrics report) <= 200000
  /\ InspectorDO.reports (stub env' userId)
     = take 50 (report :: InspectorDO.reports (stub env userId))
  /\ (forall u, u <> userId -> stub env' u = stub env u)
  /\ setCookie response
     = (if isNewUser (cookie request) then Some (userCookie userId) else None).
Proof.
  intros H Hb. cbv zeta.
  apply handleAnalyze_cases in H
    as [(_ & _ & _ & message & Hm)
       |(t & ok & st & stx & html & mt & Hj & Hv & _ & Hx & E)];
    [congruence|].
  cbv zeta in E. destruct E as [-> ->].
  pose proof (withCookie_fields (cookie request)
                (getUserId (cookie request) (freshUserId world))
                (jsonResponse 200 (BodyReport
                   {| InspectorDO.id := reportId world;
                      InspectorDO.url := t;
                      InspectorDO.title := title mt;
                      InspectorDO.description := description mt;
                      InspectorDO.reportText :=
                        JSON_stringify (analyzeWithAI JSON_parse (ai world) mt)
                          (Vitals.fetchCoreWebVitals (PAGESPEED_API_KEY env)
                             (pageSpeed world));
                      InspectorDO.metrics := mt;
                      InspectorDO.createdAt := now world |})))
    as (Hst & Hbody & Hcors & _ & Hck).
  rewrite Hbody in Hb. cbn [jsonResponse body] in Hb. injection Hb as <-.
  cbn [InspectorDO.id InspectorDO.url InspectorDO.title InspectorDO.description
       InspectorDO.metrics InspectorDO.createdAt].
  pose proof (extractMetrics_fields new_URL _ _ _ Hx)
    as (Hu & _ & _ & _ & _ & _ & _ & _ & _ & _ & Hl & _).
  repeat apply conj; try done.
  - rewrite Hl. unfold len. lia.
  - rewrite Hl. unfold len.
    destruct (200000 <? Z.of_nat (length html)) eqn:E.
    + rewrite length_take. lia.
    + apply Z.ltb_ge in E. lia.
  - rewrite stub_withStub. destruct (decide _) as [_|]; [|done].
    apply store_add.
  - intros u Hne. rewrite stub_withStub.
    destruct (decide _) as [e|]; [by destruct Hne|done].
Qed.

(** X23.  A failed write of the history never shows in the worker's
    answer: the response to any request is the same whether the store's
    write succeeds or fails, and so is every user's in-memory log; only the
    stored value differs. *)
Theorem store_failure_is_masked
        (request : Request) (env : Env) (world : World) (ok1 ok2 : bool) :
  let r1 := fetch new_URL JSON_parse JSON_stringify request env (withPutOk world ok1) in
  let r2 := fetch new_URL JSON_parse JSON_stringify request env (withPutOk world ok2) in
  snd r1 = snd r2
  /\ forall u, InspectorDO.reports (stub (fst r1) u)
               = InspectorDO.reports (stub (fst r2) u).
Proof.
  cbv zeta. unfold fetch.
  destruct (str_eqb (method request) (js "OPTIONS")); [done|].
  destruct (str_eqb (pathname request) (js "/api/analyze")
            && str_eqb (method request) (js "POST")).
  - unfold handleAnalyze.
    destruct (json request) as [[targetUrl|]|]; [| |done];
      cbn [default from_option id
           withPutOk pageFetch pageSpeed ai reportId freshUserId now putOk].
    + destruct (negb (truthy targetUrl)
                || negb (startsWith (js "http://") targetUrl)
                   && negb (startsWith (js "https://") targetUrl)); [done|].
      destruct (pageFetch world) as [error|ok st statusText [html|error]];
        try done; destruct ok; try done.
      destruct (extractMetrics new_URL _ targetUrl) as [mt|]; [|done].
      destruct (InspectorDO.fetch ok1 _ _) as [st1 resp1] eqn:E1.
      destruct (InspectorDO.fetch ok2 _ _) as [st2 resp2] eqn:E2.
      cbn [fst snd]. split; [done|].
      intros u. rewrite !stub_withStub. destruct (decide _) as [_|]; [|done].
      apply (f_equal fst) in E1, E2. cbn [fst] in E1, E2.
      rewrite <- E1, <- E2. by rewrite !store_add.
    + done.
  - destruct (str_eqb (pathname request) (js "/api/history")
              && str_eqb (method request) (js "GET")); [|done].
    unfold handleHistory. rewrite !store_list. done.
Qed.

Lemma analysis_report_core
      (request : Request) (env : Env) (world : World)
      (env' : Env) (response : Response) (report : InspectorDO.Report) :
  handleAnalyze new_URL JSON_parse JSON_stringify request env world
  = Some (env', response) ->
  body response = BodyReport report ->
  InspectorDO.reports (stub env' (getUserId (cookie request) (freshUserId world)))
  = report :: take 49 (InspectorDO.reports
                         (stub env (getUserId (cookie request) (freshUserId world))))
  /\ setCookie response
     = (if isNewUser (cookie request)
        then Some (userCookie (getUserId (cookie request) (freshUserId world)))
        else None).
Proof.
  intros H Hb.
  apply handleAnalyze_cases in H
    as [(_ & _ & _ & message & Hm)
       |(t & ok & st & stx & html & mt & Hj & Hv & _ & Hx & E)];
    [congruence|].
  cbv zeta in E. destruct E as [-> ->].
  destruct (withCookie_fields (cookie request)
              (getUserId (cookie request) (freshUserId world))
              (jsonResponse 200 (BodyReport
                 {| InspectorDO.id := reportId world;
                    InspectorDO.url := t;
                    InspectorDO.title := title mt;
                    InspectorDO.description := description mt;
                    InspectorDO.reportText :=
                      JSON_stringify (analyzeWithAI JSON_parse (ai world) mt)
                        (Vitals.fetchCoreWebVitals (PAGESPEED_API_KEY env)
                           (pageSpeed world));
                    InspectorDO.metrics := mt;
                    InspectorDO.createdAt := now world |})))
    as (_ & Hbody & _ & _ & Hck).
  rewrite Hbody in Hb. cbn [jsonResponse body] in Hb. injection Hb as <-.
  split; [|exact Hck].
  rewrite stub_withStub. destruct (decide _) as [_|]; [|done].
  by rewrite store_add.
Qed.

(** X24.  The analysis shows up in the history: after [handleAnalyze] has
    answered with a report, a history request of the same user (during any
    state of the outside world) is answered 200 with the user's log, whose
    first entry is that report.  For a new user this is the request that
    carries the cookie just issued, provided the generated id is not empty
    and has no semicolon. *)
Theorem analysis_then_history
        (request : Request) (env : Env) (world : World)
        (env1 : Env) (response1 : Response) (report : InspectorDO.Report)
        (request2 : Request) (world2 : World) :
  handleAnalyze new_URL JSON_parse JSON_stringify request env world
  = Some (env1, response1) ->
  body response1 = BodyReport report ->
  method request2 = js "GET" -> pathname request2 = js "/api/history" ->
  getUserId (cookie request2) (freshUserId world2)
  = getUserId (cookie request) (freshUserId world) ->
  let userId := getUserId (cookie request) (freshUserId world) in
  let response2 :=
    snd (fetch new_URL JSON_parse JSON_stringify request2 env1 world2) in
  status response2 = 200
  /\ body response2
     = BodyStore (InspectorDO.ReportList
                    (report :: take 49 (InspectorDO.reports (stub env userId))))
  /\ (cookie request = None ->
      freshUserId world <> [] -> Forall (fun c => c <> 59%N) (freshUserId world) ->
      setCookie response1 = Some (userCookie (freshUserId world))
      /\ forall fresh2,
           getUserId (Some (js "user_id=" ++ freshUserId world)) fresh2
           = getUserId (cookie request) (freshUserId world)).
Proof.
  intros H Hb Hm Hp Hid. cbv zeta.
  pose proof (analysis_report_core request env world env1 response1 report H Hb)
    as (Hlog & Hck).
  unfold fetch. rewrite Hm, Hp.
  change (str_eqb (js "GET") (js "OPTIONS")) with false.
  change (str_eqb (js "/api/history") (js "/api/analyze") && str_eqb (js "GET") (js "POST"))
    with false.
  rewrite !str_eqb_refl. cbn [andb].
  unfold handleHistory. rewrite store_list, Hid. cbn [InspectorDO.body snd].
  rewrite (proj1 (withCookie_fields _ _ _)),
    (proj1 (proj2 (withCookie_fields _ _ _))).
  cbn [jsonResponse status body]. rewrite Hlog.
  repeat apply conj; try done.
  intros Hnone Hne Hall. rewrite Hck, Hnone.
  assert (getUserId None (freshUserId world) = freshUserId world) as -> by reflexivity.
  split; [reflexivity|]. intros fresh2.
  pose proof (exec_here_exec _ _ _ _
                (userId_exec_here (freshUserId world) [] Hne Hall
                   ltac:(done))) as Hx.
  rewrite app_nil_r in Hx.
  unfold getUserId. change (default [] (Some ?c)) with c. by rewrite Hx.
Qed.

End WorkerPipeline.

(** ** Closed instances of the further properties *)

Lemma history_keeps_everything_witness :
  InspectorDO.reports
    (InspectorDO.addAll [(Samples.report 1, true); (Samples.report 2, false)]
       (InspectorDO.init (Some [Samples.report 0])))
  = [Samples.report 2; Samples.report 1; Samples.report 0].
Proof.
  apply (history_keeps_everything_below_cap (Some [Samples.report 0])
           [(Samples.report 1, true); (Samples.report 2, false)]).
  cbn. lia.
Defined.

Lemma history_cap_witness :
  (length (InspectorDO.reports
             (serveAll [(InspectorDO.addRequest (Samples.report 1), false);
                        (InspectorDO.listRequest, true);
                        (InspectorDO.addRequest (Samples.report 2), true)]
                (InspectorDO.init None))) <= 50)%nat.
Proof.
  apply (history_cap_is_invariant
           [(InspectorDO.addRequest (Samples.report 1), false);
            (InspectorDO.listRequest, true);
            (InspectorDO.addRequest (Samples.report 2), true)]
           (InspectorDO.init None)).
  cbn. lia.
Defined.

Lemma performance_score_witness :
  match Vitals.performanceScore
          (Vitals.fetchCoreWebVitals (Some (js "key")) (Some Samples.labAndField))
  with
  | None => (9 # 10 == 0)%Q
  | Some n => ~ (9 # 10 == 0)%Q /\ 0 <= n <= 100
  end.
Proof.
  apply (performance_score_range 107%N (js "ey") Samples.labAndField (9 # 10)).
  - reflexivity.
  - unfold Qle. cbn. lia.
  - unfold Qle. cbn. lia.
Defined.

Lemma getStatus_monotone_witness :
  (statusRank (Vitals.getStatus (Some (1 # 2)))
   <= statusRank (Vitals.getStatus (Some (9 # 10))))%nat
  /\ (statusRank (Vitals.getStatus None)
      < statusRank (Vitals.getStatus (Some (1 # 2))))%nat.
Proof.
  apply (getStatus_monotone (1 # 2) (9 # 10)).
  unfold Qle. cbn. lia.
Defined.

Lemma extracted_metrics_witness :
  extractMetrics URL.new_URL Samples.scenario Samples.sourceUrl
  = Some Samples.scenarioMetrics
  /\ htmlLength Samples.scenarioMetrics = len Samples.scenario
  /\ 0 <= imgWithAltCount Samples.scenarioMetrics <= imgCount Samples.scenarioMetrics
  /\ internalLinkCount Samples.scenarioMetrics
     + externalLinkCount Samples.scenarioMetrics
     <= linkCount Samples.scenarioMetrics.
Proof.
  assert (H : extractMetrics URL.new_URL Samples.scenario Samples.sourceUrl
              = Some Samples.scenarioMetrics) by (vm_compute; reflexivity).
  pose proof (extracted_metrics_are_consistent URL.new_URL Samples.scenario
                Samples.sourceUrl Samples.scenarioMetrics H)
    as (_ & Hl & _ & _ & _ & _ & _ & _ & Hi & _ & _ & Hk & _).
  exact (conj H (conj Hl (conj Hi Hk))).
Defined.

Lemma text_ratio_witness :
  extractMetrics URL.new_URL Samples.scenario Samples.sourceUrl
  = Some Samples.scenarioMetrics
  /\ 0 <= textToHtmlRatio Samples.scenarioMetrics <= 100.
Proof.
  assert (H : extractMetrics URL.new_URL Samples.scenario Samples.sourceUrl
              = Some Samples.scenarioMetrics) by (vm_compute; reflexivity).
  exact (conj H (proj1 (text_ratio_is_a_percentage URL.new_URL Samples.scenario
                          Samples.sourceUrl Samples.scenarioMetrics H))).
Defined.

Lemma title_trimmed_witness :
  extractMetrics URL.new_URL Samples.scenario Samples.sourceUrl
  = Some Samples.scenarioMetrics
  /\ (test true Pat.title Samples.scenario = false
      -> title Samples.scenarioMetrics = []).
Proof.
  assert (H : extractMetrics URL.new_URL Samples.scenario Samples.sourceUrl
              = Some Samples.scenarioMetrics) by (vm_compute; reflexivity).
  pose proof (title_and_description_are_trimmed URL.new_URL Samples.scenario
                Samples.sourceUrl Samples.scenarioMetrics H)
    as (_ & _ & _ & _ & Ht & _).
  exact (conj H Ht).
Defined.

Lemma user_cookie_witness :
  Worker.getUserId (Some (js "user_id=abc; theme=dark")) (js "new") = js "abc"
  /\ Worker.getUserId (Some (Worker.userCookie (js "abc"))) (js "new") = js "abc"
  /\ Worker.isNewUser (Some (js "user_id=abc; theme=dark")) = false.
Proof.
  apply (user_cookie_round_trip (js "abc") (js "; theme=dark") (js "new")).
  - vm_compute. discriminate.
  - vm_compute. repeat constructor; discriminate.
  - intros x r H. vm_compute in H. injection H as <- _. reflexivity.
Defined.

Lemma analysis_report_witness :
  Worker.handleAnalyze URL.new_URL WorkerSamples.parse WorkerSamples.stringify
    WorkerSamples.request WorkerSamples.env WorkerSamples.world
  = Some (WorkerSamples.env1, WorkerSamples.response1)
  /\ InspectorDO.reports (Worker.stub WorkerSamples.env1 (js "u-1"))
     = [WorkerSamples.report]
  /\ Worker.setCookie WorkerSamples.response1
     = Some (Worker.userCookie (js "u-1")).
Proof.
  assert (H : Worker.handleAnalyze URL.new_URL WorkerSamples.parse
                WorkerSamples.stringify WorkerSamples.request WorkerSamples.env
                WorkerSamples.world
              = Some (WorkerSamples.env1, WorkerSamples.response1))
    by (vm_compute; reflexivity).
  pose proof (analysis_report_is_stored URL.new_URL WorkerSamples.parse
                WorkerSamples.stringify WorkerSamples.request WorkerSamples.env
                WorkerSamples.world WorkerSamples.env1 WorkerSamples.response1
                WorkerSamples.report H eq_refl)
    as (_ & _ & _ & _ & _ & _ & _ & _ & _ & _ & Hlog & _ & Hck).
  exact (conj H (conj Hlog Hck)).
Defined.

Lemma analysis_then_history_witness :
  Worker.body
    (snd (Worker.fetch URL.new_URL WorkerSamples.parse WorkerSamples.stringify
            WorkerSamples.historyRequest WorkerSamples.env1 WorkerSamples.world))
  = Worker.BodyStore (InspectorDO.ReportList [WorkerSamples.report]).
Proof.
  assert (H : Worker.handleAnalyze URL.new_URL WorkerSamples.parse
                WorkerSamples.stringify WorkerSamples.request WorkerSamples.env
                WorkerSamples.world
              = Some (WorkerSamples.env1, WorkerSamples.response1))
    by (vm_compute; reflexivity).
  apply (analysis_then_history URL.new_URL WorkerSamples.parse
           WorkerSamples.stringify WorkerSamples.request WorkerSamples.env
           WorkerSamples.world WorkerSamples.env1 WorkerSamples.response1
           WorkerSamples.report WorkerSamples.historyRequest WorkerSamples.world
           H eq_refl eq_refl eq_refl).
  vm_compute. reflexivity.
Defined.
